(** * SynthSeg/supervised_training.py: shape resolution, label remapping,
      the augmentation graph builder, the batch generator and the set-up
      checks of [supervised_training], embedded as executable definitions. *)

From stdpp Require Import base numbers list strings pretty gmap sorting.
From Stdlib Require Import Ascii QArith.

Local Open Scope string_scope.
Local Open Scope Z_scope.
Local Open Scope list_scope.

(** ** Exceptions, effects and the monad threading them

    Python code raises and prints; the embedding returns either an exception
    or a value, next to the list of effects performed so far, in order. *)

Inductive exn :=
| NameError (name : string)
| AssertionError (msg : string)
| TypeError (msg : string)
| IndexError
| ZeroDivisionError
| LibraryError (who : string).

Inductive event :=
| EvPrint (line : string)
| EvListImages (dir : string)
| EvGetListLabels (labels_dir : string)
| EvMkdir (path : string)
| EvVolumeInfo (path : string)
| EvRandint (high size : Z)
| EvLoadVolume (path : string).

Definition M (A : Type) : Type := list event * (exn + A).

Global Instance M_ret : MRet M := λ A a, ([], inr a).
Global Instance M_bind : MBind M := λ A B f m,
  match m.2 with
  | inl e => (m.1, inl e)
  | inr a => let r := f a in (m.1 ++ r.1, r.2)
  end.

Definition raise {A} (e : exn) : M A := ([], inl e).
Definition emit (ev : event) : M unit := ([ev], inr tt).
Definition trace {A} (m : M A) : list event := m.1.
Definition outcome {A} (m : M A) : exn + A := m.2.

(** [assert cond, msg] *)
Definition py_assert (cond : bool) (msg : string) : M unit :=
  if cond then mret tt else raise (AssertionError msg).

(** [l[i]] on a Python list, for the non-negative indices a [range] gives. *)
Definition py_index {A} (l : list A) (i : nat) : M A :=
  match l !! i with
  | Some a => mret a
  | None => raise IndexError
  end.

(** [str(x)] and [str(l)] for an int and a list of ints. *)
Definition str_int (z : Z) : string := pretty z.

Fixpoint str_items (l : list Z) : string :=
  match l with
  | [] => ""
  | [z] => str_int z
  | z :: l' => str_int z +:+ ", " +:+ str_items l'
  end.

Definition str_list (l : list Z) : string := "[" +:+ str_items l +:+ "]".

(** ** Helpers of ext.lab2im.utils used by [get_shapes] *)

(** Modelled from the spec: [utils.reformat_to_list] lives in
    ext/lab2im/utils.py. Shapes are already sequences of ints here, so the
    conversion to a list of ints keeps the value; with [length] given the
    result has that length, and a sequence of another length is outside what
    the helper is described to return: the helper raises. *)
Definition reformat_to_list (var : list Z) (length : option nat) : M (list Z) :=
  match length with
  | None => mret var
  | Some n =>
      if bool_decide (List.length var = n) then mret var
      else raise (LibraryError "reformat_to_list")
  end.

(** Modelled from the spec: [utils.find_closest_number_divisible_by_m] lives
    in ext/lab2im/utils.py. Called with [smaller_ans=True] throughout: it
    rounds [n] down to the nearest multiple of [m]; a zero divisor raises. *)
Definition find_closest_number_divisible_by_m (n m : Z) : M Z :=
  if bool_decide (m = 0) then raise ZeroDivisionError
  else mret (m * (n `div` m)).

(** ** [get_shapes] (lines 266-300) *)

(** line 277: [[min(im_shape[i], crop_shape[i]) for i in range(n_dims)]] *)
Definition clamp_crop_shape (im_shape crop_shape : list Z) (n_dims : nat) : M (list Z) :=
  mapM (λ i, a ← py_index im_shape i; b ← py_index crop_shape i; mret (Z.min a b))
       (seq 0 n_dims).

Definition not_divisible_message (crop_shape : list Z) (n : Z) (tmp_shape : list Z) : string :=
  "crop_shape " +:+ str_list crop_shape +:+ " not divisible by " +:+ str_int n
    +:+ ", changed to " +:+ str_list tmp_shape.

Definition get_shapes (im_shape : list Z) (crop_shape : option (list Z))
    (output_div_by_n : option Z) : M (list Z) :=
  im_shape ← reformat_to_list im_shape None;
  let n_dims := length im_shape in
  match crop_shape with
  | Some crop_shape =>
      crop_shape ← reformat_to_list crop_shape (Some n_dims);
      crop_shape ← clamp_crop_shape im_shape crop_shape n_dims;
      match output_div_by_n with
      | Some n =>
          tmp_shape ← mapM (λ s, find_closest_number_divisible_by_m s n) crop_shape;
          if bool_decide (crop_shape ≠ tmp_shape) then
            _ ← emit (EvPrint (not_divisible_message crop_shape n tmp_shape));
            mret tmp_shape
          else mret crop_shape
      | None => mret crop_shape
      end
  | None =>
      match output_div_by_n with
      | Some n => mapM (λ s, find_closest_number_divisible_by_m s n) im_shape
      | None => mret im_shape
      end
  end.

(** ** Label remapping (lines 166-174 and 215-217) *)

(** The two-way lookup: label id to dense index, and back. *)
Record lookup_table := { lut_forward : gmap Z Z; lut_inverse : gmap Z Z }.

(** The ids of [labels] numbered from [i] on, in the order of the list. *)
Fixpoint forward_from (i : Z) (labels : list Z) : gmap Z Z :=
  match labels with
  | [] => ∅
  | x :: rest => <[x := i]> (forward_from (i + 1) rest)
  end.

Fixpoint inverse_from (i : Z) (labels : list Z) : gmap Z Z :=
  match labels with
  | [] => ∅
  | x :: rest => <[i := x]> (inverse_from (i + 1) rest)
  end.

(** The canonical order of the spec: numerically ascending, with the zero
    label, if present, forced first. *)
Definition canonical_order (label_list : list Z) : list Z :=
  (if bool_decide (0 ∈ label_list) then [0] else [])
  ++ merge_sort Z.le (filter (λ x, x ≠ 0) label_list).

(** Modelled from the spec: the LookupTable of a label list. The ids are
    numbered 0..N-1 in canonical order; the table looks up both ways. *)
Definition lookup_table_of (label_list : list Z) : lookup_table :=
  {| lut_forward := forward_from 0 (canonical_order label_list);
     lut_inverse := inverse_from 0 (canonical_order label_list) |}.

(** Modelled from the spec: [utils.rearrange_label_list] lives in
    ext/lab2im/utils.py. [build(label_list) -> (dense_label_list,
    lookup_table)]: the dense list 0..N-1 and the lookup table of the
    list; an empty list or a list with duplicates fails. *)
Definition rearrange_label_list (label_list : list Z) : M (list Z * lookup_table) :=
  if bool_decide (label_list = []) then raise (LibraryError "rearrange_label_list")
  else if bool_decide (NoDup label_list) then
    mret (Z.of_nat <$> seq 0 (length (canonical_order label_list)),
          lookup_table_of label_list)
  else raise (LibraryError "rearrange_label_list").

(** The second argument of [l2i_et.convert_labels]: the lookup table at
    line 174, the caller's list of label ids at line 216. *)
Inductive table :=
| TableLut (lut : lookup_table)
| TableList (labels : list Z).

(** Modelled from the spec: what [convert_labels] reads for a value. Given
    the lookup table (stage 1) it looks the id up forward; given the
    caller's list of label ids (stage 7) it inverts the lookup table of
    that list: a dense index stands for the id the table numbers with it. *)
Definition table_lookup (t : table) (v : Z) : option Z :=
  match t with
  | TableLut lut => lut_forward lut !! v
  | TableList labels => lut_inverse (lookup_table_of labels) !! v
  end.

(** Modelled from the spec: [l2i_et.convert_labels] lives in
    ext/lab2im/edit_tensors.py. Every value of the label volume is replaced
    by its entry in the table; a value without an entry is reset to zero. *)
Definition convert_labels_values (label_map : list Z) (t : table) : list Z :=
  (λ v, default 0 (table_lookup t v)) <$> label_map.

(** lines 167 and 174 on the values of a label volume *)
Definition encode_labels (segmentation_labels label_map : list Z) : M (list Z) :=
  '(new_seg_labels, lut) ← rearrange_label_list segmentation_labels;
  mret (convert_labels_values label_map (TableLut lut)).

(** line 216 on the values of a label volume *)
Definition decode_labels (segmentation_labels labels : list Z) : list Z :=
  convert_labels_values labels (TableList segmentation_labels).

(** ** The augmentation graph (lines 144-223) *)

(** Values the augmentation switches are given: [None], [False]/[True], an
    int or a float (a rational here; no NaN). *)
Inductive pyval :=
| PyNone
| PyBool (b : bool)
| PyInt (z : Z)
| PyFloat (q : Q).

(** [v is not False] *)
Definition is_not_False (v : pyval) : bool :=
  match v with
  | PyBool false => false
  | _ => true
  end.

(** [v > 0] *)
Definition gt_zero (v : pyval) : M bool :=
  match v with
  | PyNone => raise (TypeError "'>' not supported between instances of 'NoneType' and 'int'")
  | PyBool b => mret b
  | PyInt z => mret (bool_decide (0 < z))
  | PyFloat q => mret (if Qlt_le_dec 0 q then true else false)
  end.

(** Names bound at module level by the imports (lines 2-21) and the four
    [def]s. *)
Definition module_globals : list string :=
  ["os"; "np"; "tf"; "KL"; "K"; "npr"; "Model"; "metrics_model"; "train_model";
   "utils"; "edit_volumes"; "nrn_models"; "nrn_layers"; "l2i_et"; "l2i_sa"; "l2i_ia";
   "supervised_training"; "build_augmentation_model"; "build_model_inputs"; "get_shapes"].

(** Reading a name that is not local to the function. *)
Definition load_global (globals : list string) (name : string) : M unit :=
  if bool_decide (name ∈ globals) then mret tt else raise (NameError name).

Inductive dtype := float32 | int32.

Definition matrix := list (list Z).

(** [np.eye(4)] *)
Definition eye4 : matrix := [[1; 0; 0; 0]; [0; 1; 0; 0]; [0; 0; 1; 0]; [0; 0; 0; 1]].

Inductive layer :=
| Input (name : string)
| ConvertLabels (t : table)
| RandomSpatialDeformation (scaling rotation shearing translation nonlin : pyval)
    (nonlin_shape_factor : Q)
| RandomCrop (crop_shape : list Z)
| RandomFlip (aff : matrix) (n_dims : nat) (label_list : list Z) (n_neutral_labels : Z)
| BiasFieldCorruption (bias_field_std : pyval) (bias_shape_factor : Q)
| IntensityAugmentation
| Cast (dt : dtype) (name : string)
| TakeFirst (name : string).

(** A symbolic tensor: shape without the batch axis, element type, and the
    layers it went through. *)
Record tensor := { t_shape : list Z; t_dtype : dtype; t_history : list layer }.

(** Modelled from the spec: the layers of ext/lab2im/layers.py are not
    bound in this module. Deformation, flip, bias field and intensity
    augmentation keep the shape; the crop extracts a sub-volume of the
    target shape (channels kept); a cast sets the element type. *)
Definition layer_shape (l : layer) (s : list Z) : list Z :=
  match l with
  | RandomCrop crop_shape => crop_shape ++ drop (length crop_shape) s
  | _ => s
  end.

Definition layer_dtype (l : layer) (d : dtype) : dtype :=
  match l with
  | Cast dt _ => dt
  | _ => d
  end.

Definition apply_layer (l : layer) (t : tensor) : tensor :=
  {| t_shape := layer_shape l (t_shape t);
     t_dtype := layer_dtype l (t_dtype t);
     t_history := t_history t ++ [l] |}.

(** [KL.Input(shape=..., name=...)] *)
Definition KL_Input (shape : list Z) (name : string) : tensor :=
  {| t_shape := shape; t_dtype := float32; t_history := [Input name] |}.

(** Modelled from the spec: [utils.get_dims] lives in ext/lab2im/utils.py;
    its first result is the spatial dimensionality of the shape. *)
Definition get_dims (shape : list Z) : nat := length shape.

Record augmentation_args := {
  im_shape : list Z;
  n_channels : Z;
  segmentation_labels : list Z;
  n_neutral_labels : Z;
  output_shape : option (list Z);
  output_div_by_n : option Z;
  flipping : bool;
  aff : option matrix;
  scaling_bounds : pyval;
  rotation_bounds : pyval;
  shearing_bounds : pyval;
  translation_bounds : pyval;
  nonlin_std : pyval;
  nonlin_shape_factor : Q;
  bias_field_std : pyval;
  bias_shape_factor : Q
}.

(** The model returned at line 221: the global its inputs were read from
    and its two outputs. *)
Record model := { m_inputs : string; m_image : tensor; m_labels : tensor }.

(** lines 176-188 *)
Definition deformation_stage (globals : list string) (a : augmentation_args)
    (labels image_input : tensor) : M (tensor * tensor) :=
  if is_not_False (scaling_bounds a) || is_not_False (rotation_bounds a)
     || is_not_False (shearing_bounds a) || is_not_False (translation_bounds a)
     || is_not_False (nonlin_std a)
  then
    _ ← load_global globals "layers";
    let l := RandomSpatialDeformation (scaling_bounds a) (rotation_bounds a)
               (shearing_bounds a) (translation_bounds a) (nonlin_std a)
               (nonlin_shape_factor a) in
    mret (apply_layer l labels, apply_layer l image_input)
  else mret (labels, image_input).

(** lines 190-194 *)
Definition crop_stage (globals : list string) (crop_shape im_shape : list Z)
    (labels image : tensor) : M (tensor * tensor) :=
  if bool_decide (crop_shape ≠ im_shape) then
    _ ← load_global globals "layers";
    mret (apply_layer (RandomCrop crop_shape) labels, apply_layer (RandomCrop crop_shape) image)
  else mret (labels, image).

(** lines 196-202 *)
Definition flip_stage (globals : list string) (a : augmentation_args) (n_dims : nat)
    (new_seg_labels : list Z) (labels image : tensor) : M (tensor * tensor) :=
  if flipping a then
    _ ← py_assert (bool_decide (aff a ≠ None)) "aff should not be None if flipping is True";
    _ ← load_global globals "layers";
    _ ← load_global globals "get_ras_axes";
    let l := RandomFlip (default [] (aff a)) n_dims new_seg_labels (n_neutral_labels a) in
    mret (apply_layer l labels, apply_layer l image)
  else mret (labels, image).

(** lines 204-208 *)
Definition bias_stage (globals : list string) (a : augmentation_args)
    (image : tensor) : M tensor :=
  positive ← gt_zero (bias_field_std a);
  if positive : bool then
    _ ← load_global globals "layers";
    let image := apply_layer (BiasFieldCorruption (bias_field_std a) (bias_shape_factor a)) image in
    _ ← load_global globals "KL";
    mret (apply_layer (Cast float32 "image_biased") image)
  else mret image.

(** lines 210-213 *)
Definition intensity_stage (globals : list string) (image : tensor) : M tensor :=
  _ ← load_global globals "layers";
  let image := apply_layer IntensityAugmentation image in
  _ ← load_global globals "KL";
  mret (apply_layer (Cast float32 "image_augmented") image).

Definition build_augmentation_model (globals : list string) (a : augmentation_args) : M model :=
  (* reformat resolutions and get shapes *)
  _ ← load_global globals "utils";
  im_shape ← reformat_to_list (im_shape a) None;
  let n_dims := get_dims im_shape in
  _ ← load_global globals "get_shapes";
  crop_shape ← get_shapes im_shape (output_shape a) (output_div_by_n a);
  (* create new_label_list and corresponding LUT *)
  '(new_seg_labels, lut) ← rearrange_label_list (segmentation_labels a);
  (* define model inputs *)
  _ ← load_global globals "KL";
  let image_input := KL_Input (im_shape ++ [n_channels a]) "image_input" in
  let labels_input := KL_Input (im_shape ++ [1]) "labels_input" in
  (* convert labels to new_label_list *)
  _ ← load_global globals "l2i_et";
  let labels := apply_layer (ConvertLabels (TableLut lut)) labels_input in
  '(labels, image) ← deformation_stage globals a labels image_input;
  '(labels, image) ← crop_stage globals crop_shape im_shape labels image;
  '(labels, image) ← flip_stage globals a n_dims new_seg_labels labels image;
  image ← bias_stage globals a image;
  image ← intensity_stage globals image;
  (* convert labels back to original values and reset unwanted labels to zero *)
  _ ← load_global globals "l2i_et";
  let labels := apply_layer (ConvertLabels (TableList (segmentation_labels a))) labels in
  let labels := apply_layer (Cast int32 "labels_out") labels in
  (* build model *)
  let image := apply_layer (TakeFirst "image_out") image in
  _ ← load_global globals "Model";
  _ ← load_global globals "list_inputs";
  mret {| m_inputs := "list_inputs"; m_image := image; m_labels := labels |}.

(** ** The batch generator (lines 226-263) *)

(** A numpy array: its shape and its values in row-major order. *)
Record ndarray (voxel : Type) := { shape : list Z; data : list voxel }.
Arguments shape {voxel} _.
Arguments data {voxel} _.

Record volume_info := { vi_shape : list Z; vi_n_dims : Z; vi_n_channels : Z }.

(** What a run finds outside the program: the files of a folder, the label
    list and the header of a volume as the helpers of ext.lab2im.utils
    report them, the volume stored under a path, and the outcome of the
    [call]-th [npr.randint(high, size=size)]. *)
Record world (voxel : Type) := {
  w_listing : string → exn + list string;
  w_labels : option string → string → exn + (list Z * Z);
  w_info : string → exn + volume_info;
  w_volume : string → exn + ndarray voxel;
  w_draw : nat → Z → Z → list Z
}.
Arguments w_listing {voxel} _ _.
Arguments w_labels {voxel} _ _ _.
Arguments w_info {voxel} _ _.
Arguments w_volume {voxel} _ _.
Arguments w_draw {voxel} _ _ _ _.

Definition lift {A} (r : exn + A) : M A := ([], r).

(** [l[idx]] for a Python int: a negative index counts from the end. *)
Definition py_index_int {A} (l : list A) (idx : Z) : M A :=
  if bool_decide (0 ≤ idx) then py_index l (Z.to_nat idx)
  else if bool_decide (0 ≤ idx + Z.of_nat (length l)) then
    py_index l (Z.to_nat (idx + Z.of_nat (length l)))
  else raise IndexError.

Section Generator.
Context {voxel : Type} (w : world voxel).

Definition get_volume_info (path : string) : M volume_info :=
  _ ← emit (EvVolumeInfo path); lift (w_info w path).

Definition load_volume (path : string) : M (ndarray voxel) :=
  _ ← emit (EvLoadVolume path); lift (w_volume w path).

(** [npr.randint(high, size=size)]: a draw of no element is empty whatever
    the bound; any other draw needs a positive bound and a positive size. *)
Definition npr_randint (call : nat) (high size : Z) : M (list Z) :=
  _ ← emit (EvRandint high size);
  if bool_decide (size = 0) then mret []
  else if bool_decide (0 < high ∧ 0 < size) then mret (w_draw w call high size)
  else raise (LibraryError "randint").

(** [np.expand_dims(x, axis=ax)] *)
Definition expand_dims (x : ndarray voxel) (ax : Z) : M (ndarray voxel) :=
  let n := Z.of_nat (length (shape x)) in
  let pos := if bool_decide (0 ≤ ax) then ax else ax + n + 1 in
  if bool_decide (0 ≤ pos ≤ n) then
    mret {| shape := take (Z.to_nat pos) (shape x) ++ [1] ++ drop (Z.to_nat pos) (shape x);
            data := data x |}
  else raise (LibraryError "expand_dims").

(** Modelled from the spec: [utils.add_axis] lives in ext/lab2im/utils.py.
    It gives the array an axis of size 1 at each listed position, one
    after the other: 0 is the leading axis, -1 appends the channel axis. *)
Fixpoint add_axis (x : ndarray voxel) (axis : list Z) : M (ndarray voxel) :=
  match axis with
  | [] => mret x
  | ax :: rest => x ← expand_dims x ax; add_axis x rest
  end.

(** [np.concatenate(item, 0)] *)
Definition np_concatenate (item : list (ndarray voxel)) : M (ndarray voxel) :=
  match item with
  | [] => raise (LibraryError "concatenate")
  | first :: _ =>
      match shape first with
      | [] => raise (LibraryError "concatenate")
      | _ :: rest =>
          if bool_decide (Forall (λ x, shape x ≠ [] ∧ tail (shape x) = rest) item) then
            mret {| shape := foldr Z.add 0 ((λ x, hd 0 (shape x)) <$> item) :: rest;
                    data := mjoin (data <$> item) |}
          else raise (LibraryError "concatenate")
      end
  end.

(** lines 243-254: the loop over the drawn indices *)
Fixpoint load_samples (path_images path_label_maps : list string) (n_channels : Z)
    (indices : list Z) (list_images list_label_maps : list (ndarray voxel))
    : M (list (ndarray voxel) * list (ndarray voxel)) :=
  match indices with
  | [] => mret (list_images, list_label_maps)
  | idx :: rest =>
      (* add image *)
      path ← py_index_int path_images idx;
      image ← load_volume path;
      image ← (if bool_decide (1 < n_channels) then add_axis image [0]
               else add_axis image [0; -1]);
      let list_images := list_images ++ [image] in
      (* add labels *)
      path ← py_index_int path_label_maps idx;
      labels ← load_volume path;
      labels ← add_axis labels [0; -1];
      let list_label_maps := list_label_maps ++ [labels] in
      load_samples path_images path_label_maps n_channels rest list_images list_label_maps
  end.

(** lines 236-263: one turn of the [while True] loop, up to its [yield] *)
Definition next_inputs (path_images path_label_maps : list string) (batchsize n_channels : Z)
    (call : nat) : M (list (ndarray voxel)) :=
  indices ← npr_randint call (Z.of_nat (length path_label_maps)) batchsize;
  '(list_images, list_label_maps) ←
    load_samples path_images path_label_maps n_channels indices [] [];
  let list_inputs := [list_images; list_label_maps] in
  if bool_decide (1 < batchsize) then mapM np_concatenate list_inputs
  else mapM (λ item, py_index item 0) list_inputs.

Fixpoint generate (path_images path_label_maps : list string) (batchsize n_channels : Z)
    (call pulls : nat) : M (list (list (ndarray voxel))) :=
  match pulls with
  | O => mret []
  | S pulls =>
      list_inputs ← next_inputs path_images path_label_maps batchsize n_channels call;
      later ← generate path_images path_label_maps batchsize n_channels (S call) pulls;
      mret (list_inputs :: later)
  end.

(** The generator, observed through its first [pulls] yields. Nothing of
    its body runs before the first pull. *)
Definition build_model_inputs (path_images path_label_maps : list string) (batchsize : Z)
    (pulls : nat) : M (list (list (ndarray voxel))) :=
  match pulls with
  | O => mret []
  | S _ =>
      path ← py_index path_images 0;
      info ← get_volume_info path;
      generate path_images path_label_maps batchsize (vi_n_channels info) 0 pulls
  end.

End Generator.

(** ** [supervised_training] (lines 24-141) *)

Record training_args := {
  image_dir : string;
  labels_dir : string;
  model_dir : string;
  path_segmentation_labels : option string;
  batchsize : Z;
  st_output_shape : option (list Z);
  st_flipping : bool;
  st_scaling_bounds : pyval;
  st_rotation_bounds : pyval;
  st_shearing_bounds : pyval;
  st_translation_bounds : pyval;
  st_nonlin_std : pyval;
  st_nonlin_shape_factor : Q;
  st_bias_field_std : pyval;
  st_bias_shape_factor : Q;
  n_levels : nat;
  wl2_epochs : Z;
  dice_epochs : Z
}.

Definition epochs_message (wl2_epochs dice_epochs : Z) : string :=
  "either wl2_epochs or dice_epochs must be positive, had " +:+ str_int wl2_epochs
    +:+ " and " +:+ str_int dice_epochs.

Definition counts_message : string := "There should be as many images as label maps.".

Fixpoint ends_with_slash (s : string) : bool :=
  match s with
  | EmptyString => false
  | String c EmptyString => bool_decide (c = "/"%char)
  | String _ rest => ends_with_slash rest
  end.

(** [os.path.join(a, b)] for a relative [b] *)
Definition path_join (a b : string) : string :=
  if bool_decide (a = "") || ends_with_slash a then a +:+ b else a +:+ "/" +:+ b.

Section SupervisedTraining.
Context {voxel : Type} (w : world voxel).

(** Lines 94-141: the U-Net, the metrics models and the two training
    phases, which consume the augmentation model and the generator. *)
Variable train : training_args → model → (nat → M (list (list (ndarray voxel)))) → M unit.

Definition list_images_in_folder (dir : string) : M (list string) :=
  _ ← emit (EvListImages dir); lift (w_listing w dir).

Definition get_list_labels (label_list : option string) (labels_dir : string)
    : M (list Z * Z) :=
  _ ← emit (EvGetListLabels labels_dir); lift (w_labels w label_list labels_dir).

Definition mkdir (path : string) : M unit := emit (EvMkdir path).

Definition supervised_training (globals : list string) (a : training_args) : M unit :=
  (* check epochs *)
  _ ← py_assert (bool_decide (0 < wl2_epochs a) || bool_decide (0 < dice_epochs a))
        (epochs_message (wl2_epochs a) (dice_epochs a));
  (* prepare data files *)
  path_images ← list_images_in_folder (image_dir a);
  path_labels ← list_images_in_folder (labels_dir a);
  _ ← py_assert (bool_decide (length path_images = length path_labels)) counts_message;
  (* get label lists *)
  '(label_list, n_neutral_labels) ←
    get_list_labels (path_segmentation_labels a) (labels_dir a);
  (* prepare model folder and log folder *)
  _ ← mkdir (model_dir a);
  let log_dir := path_join (model_dir a) "logs" in
  _ ← mkdir log_dir;
  (* create augmentation model and input generator *)
  path ← py_index path_images 0;
  info ← get_volume_info w path;
  augmentation_model ← build_augmentation_model globals
    {| im_shape := vi_shape info;
       n_channels := vi_n_channels info;
       segmentation_labels := label_list;
       n_neutral_labels := n_neutral_labels;
       output_shape := st_output_shape a;
       output_div_by_n := Some (2 ^ Z.of_nat (n_levels a));
       flipping := st_flipping a;
       aff := Some eye4;
       scaling_bounds := st_scaling_bounds a;
       rotation_bounds := st_rotation_bounds a;
       shearing_bounds := st_shearing_bounds a;
       translation_bounds := st_translation_bounds a;
       nonlin_std := st_nonlin_std a;
       nonlin_shape_factor := st_nonlin_shape_factor a;
       bias_field_std := st_bias_field_std a;
       bias_shape_factor := st_bias_shape_factor a |};
  let model_input_generator := build_model_inputs w path_images path_labels (batchsize a) in
  train a augmentation_model model_input_generator.

End SupervisedTraining.

(** ** setup_nvidia.py *)

Definition preInstalledPackages : list string :=
  ["tensorboard==2.0.2"; "tensorflow-estimator==2.0.1"; "tensorflow-gpu==2.0.0";
   "tensorboard==2.2.2"; "tensorboard-plugin-wit==1.8.1"; "tensorflow-estimator==2.2.0";
   "tensorflow-gpu==2.2.0"].

(** How a run of the script ends: the exception of line 12, a requirements
    file that cannot be opened, or the call of [setuptools.setup] with the
    packages found (printed at line 19) and its [install_requires]. *)
Inductive setup_result :=
| SetupRaised (msg : string)
| SetupMissingFile (path : string)
| SetupCalled (packages : list string) (install_requires : list string).

Section SetupNvidia.
(** [str.strip], the lines of the file under a path ([None] when it cannot
    be opened) and the result of [setuptools.find_packages()]. *)
Variable strip : string → string.
Variable read_lines : string → option (list string).
Variable find_packages : list string.

Definition setup_nvidia (sys_version : string) : setup_result :=
  let python_version := String.substring 0 3 sys_version in
  if bool_decide (python_version ≠ "3.6") && bool_decide (python_version ≠ "3.8") then
    SetupRaised ("Setup.py only works with python version 3.6 or 3.8, not "
                 +:+ python_version)
  else
    match read_lines ("requirements_python" +:+ python_version +:+ ".txt") with
    | None => SetupMissingFile ("requirements_python" +:+ python_version +:+ ".txt")
    | Some lines =>
        let required_packages :=
          strip <$> filter (λ line, strip line ∉ preInstalledPackages) lines in
        SetupCalled find_packages required_packages
    end.

End SetupNvidia.

(** [str.strip] on ASCII text: the characters [str.isspace] holds of
    (blank, tab, line feed, vertical tab, form feed, carriage return and
    the separators 0x1c-0x1f) are dropped at both ends. *)
Definition is_space (c : ascii) : bool :=
  bool_decide (c ∈ [" "; "009"; "010"; "011"; "012"; "013";
                    "028"; "029"; "030"; "031"]%char).

Fixpoint drop_spaces (l : list ascii) : list ascii :=
  match l with
  | [] => []
  | c :: rest => if is_space c then drop_spaces rest else l
  end.

Definition strip_ascii (s : string) : string :=
  String.string_of_list_ascii
    (reverse (drop_spaces (reverse (drop_spaces (String.list_ascii_of_string s))))).

(** The requirements file of Python 3.8, as [readlines] gives it. *)
Definition example_requirements (path : string) : option (list string) :=
  if bool_decide (path = "requirements_python3.8.txt")
  then Some ["numpy==1.18.5" +:+ String "010" "";
             "tensorflow-gpu==2.2.0" +:+ String "010" "";
             String "010" "";
             "numpy==1.18.5" +:+ String "010" "";
             String "010" ""]
  else None.

(** ** Vocabulary of the statements *)

(** The multiple of [m] that rounding [n] down gives. *)
Definition round_down (m n : Z) : Z := m * (n `div` m).

(** [r] is the largest multiple of [m] that does not exceed [bound]. *)
Definition largest_multiple_at_most (m bound r : Z) : Prop :=
  (m | r) ∧ r ≤ bound ∧ ∀ k, (m | k) → k ≤ bound → k ≤ r.

(** The size asked for on each axis: the requested crop shape clamped to
    the native shape, or the native shape when no crop shape is given. *)
Definition requested_shape (im_shape : list Z) (crop_shape : option (list Z)) : list Z :=
  match crop_shape with
  | Some c => zip_with Z.min im_shape c
  | None => im_shape
  end.

(** "Whenever [get_shapes] returns something else than what the caller
    asked for, it has printed a message." *)
Definition every_correction_is_reported : Prop :=
  ∀ im_shape crop_shape div r,
    outcome (get_shapes im_shape crop_shape div) = inr r →
    r ≠ default im_shape crop_shape →
    trace (get_shapes im_shape crop_shape div) ≠ [].

(** A switch set to [None], [False] or 0. *)
Definition disabled (v : pyval) : Prop :=
  v = PyNone ∨ v = PyBool false ∨ v = PyInt 0 ∨ v = PyFloat 0.

(** "With its five bounds disabled the deformation stage is skipped." *)
Definition disabled_bounds_skip_deformation : Prop :=
  ∀ globals a labels image,
    disabled (scaling_bounds a) → disabled (rotation_bounds a) →
    disabled (shearing_bounds a) → disabled (translation_bounds a) →
    disabled (nonlin_std a) →
    deformation_stage globals a labels image = mret (labels, image).

(** [v <= 0] holds *)
Definition le_zero (v : pyval) : Prop :=
  match v with
  | PyNone => False
  | PyBool b => b = false
  | PyInt z => z ≤ 0
  | PyFloat q => (q <= 0)%Q
  end.

(** "Every call of [build_augmentation_model] raises a NameError." *)
Definition always_NameError : Prop :=
  ∀ a, ∃ name, outcome (build_augmentation_model module_globals a) = inl (NameError name).

(** The call of lines 78-93 with the defaults of [supervised_training], for
    a 100x100x100 single-channel volume and the labels 0, 2, 3. *)
Definition supervised_training_defaults : augmentation_args := {|
  im_shape := [100; 100; 100];
  n_channels := 1;
  segmentation_labels := [0; 2; 3];
  n_neutral_labels := 1;
  output_shape := None;
  output_div_by_n := Some 32;
  flipping := true;
  aff := Some eye4;
  scaling_bounds := PyFloat (15 # 1000);
  rotation_bounds := PyInt 15;
  shearing_bounds := PyFloat (12 # 1000);
  translation_bounds := PyBool false;
  nonlin_std := PyFloat 3;
  nonlin_shape_factor := 4 # 100;
  bias_field_std := PyFloat (3 # 10);
  bias_shape_factor := 25 # 1000
|}.

(** Deformation and bias field switched off, no crop, [flipping=True]. *)
Definition all_switched_off (a : option matrix) : augmentation_args := {|
  im_shape := [100; 100; 100];
  n_channels := 1;
  segmentation_labels := [0; 2; 3];
  n_neutral_labels := 1;
  output_shape := None;
  output_div_by_n := None;
  flipping := true;
  aff := a;
  scaling_bounds := PyBool false;
  rotation_bounds := PyBool false;
  shearing_bounds := PyBool false;
  translation_bounds := PyBool false;
  nonlin_std := PyBool false;
  nonlin_shape_factor := 4 # 100;
  bias_field_std := PyInt 0;
  bias_shape_factor := 25 # 1000
|}.

(** The defaults of [supervised_training] with the given epoch counts. *)
Definition example_training_args (wl2 dice : Z) : training_args := {|
  image_dir := "images";
  labels_dir := "labels";
  model_dir := "models";
  path_segmentation_labels := None;
  batchsize := 1;
  st_output_shape := None;
  st_flipping := true;
  st_scaling_bounds := PyFloat (15 # 1000);
  st_rotation_bounds := PyInt 15;
  st_shearing_bounds := PyFloat (12 # 1000);
  st_translation_bounds := PyBool false;
  st_nonlin_std := PyFloat 3;
  st_nonlin_shape_factor := 4 # 100;
  st_bias_field_std := PyFloat (3 # 10);
  st_bias_shape_factor := 25 # 1000;
  n_levels := 5;
  wl2_epochs := wl2;
  dice_epochs := dice
|}.

(** Three images, two label maps; every volume is 2x2x2, single channel. *)
Definition example_world : world Z := {|
  w_listing := λ dir, if bool_decide (dir = "images") then inr ["a"; "b"; "c"]
                      else inr ["a"; "b"];
  w_labels := λ _ _, inr ([0; 2; 3], 1);
  w_info := λ _, inr {| vi_shape := [2; 2; 2]; vi_n_dims := 3; vi_n_channels := 1 |};
  w_volume := λ _, inr {| shape := [2; 2; 2]; data := replicate 8 0 |};
  w_draw := λ _ _ size, replicate (Z.to_nat size) 0
|}.

(** Size of the channel axis of a yielded image. *)
Definition channel_axis (n_channels : Z) : Z :=
  if bool_decide (1 < n_channels) then n_channels else 1.

(** Shape of an image as stored: multi-channel volumes carry their channel
    axis, single-channel volumes do not. *)
Definition stored_image_shape (spatial : list Z) (n_channels : Z) : list Z :=
  if bool_decide (1 < n_channels) then spatial ++ [n_channels] else spatial.

(** [npr.randint(high, size=size)] gives [size] indices below [high]. *)
Definition draws_in_range {voxel} (w : world voxel) : Prop :=
  ∀ call high size, 0 < high → 0 ≤ size →
    length (w_draw w call high size) = Z.to_nat size
    ∧ Forall (λ i, 0 ≤ i < high) (w_draw w call high size).

(** "With [batchsize == 1] the yielded arrays have no batch axis": over
    single-channel volumes they have the spatial axes and the channel axis
    only. *)
Definition single_batch_has_no_batch_axis : Prop :=
  ∀ (w : world Z) (path_images path_label_maps : list string) (spatial : list Z)
    (pulls : nat) (yielded : list (list (ndarray Z))),
    (∀ path, ∃ x, w_volume w path = inr x ∧ shape x = spatial) →
    outcome (build_model_inputs w path_images path_label_maps 1 pulls) = inr yielded →
    Forall (Forall (λ x, length (shape x) = S (length spatial))) yielded.

(** ** Vocabulary of the further properties *)

(** Layers that move voxels; the builder gives them the image and the
    labels together. *)
Definition is_spatial (l : layer) : bool :=
  match l with
  | RandomSpatialDeformation _ _ _ _ _ _ | RandomCrop _ | RandomFlip _ _ _ _ => true
  | _ => false
  end.

(** Layers that change intensities. *)
Definition is_intensity (l : layer) : bool :=
  match l with
  | BiasFieldCorruption _ _ | IntensityAugmentation => true
  | _ => false
  end.

(** The module's names together with the three it leaves unbound. *)
Definition bound_globals : list string :=
  module_globals ++ ["layers"; "get_ras_axes"; "list_inputs"].

(** Where the label and image tensors stand between two stages: both went
    through the spatial layers [sp], after the inputs and the encoding of
    the labels, and both have the spatial shape [s]. *)
Definition aligned (a : augmentation_args) (lut : lookup_table) (sp : list layer)
    (s : list Z) (labels image : tensor) : Prop :=
  t_history labels = [Input "labels_input"; ConvertLabels (TableLut lut)] ++ sp
  ∧ t_history image = [Input "image_input"] ++ sp
  ∧ t_shape labels = s ++ [1]
  ∧ t_shape image = s ++ [n_channels a]
  ∧ Forall (λ l, is_spatial l = true) sp.

(** The model the builder returns for the default call once the three
    names are bound. *)
Definition default_model : model :=
  match outcome (build_augmentation_model bound_globals supervised_training_defaults) with
  | inr m => m
  | inl _ => {| m_inputs := ""; m_image := KL_Input [] ""; m_labels := KL_Input [] "" |}
  end.

(** Drawing indices and loading volumes: what sampling does. *)
Definition is_sampling (ev : event) : bool :=
  match ev with
  | EvRandint _ _ | EvLoadVolume _ => true
  | _ => false
  end.

Definition is_load (ev : event) : bool :=
  match ev with
  | EvLoadVolume _ => true
  | _ => false
  end.

Definition is_print (ev : event) : bool :=
  match ev with
  | EvPrint _ => true
  | _ => false
  end.

(** Two folders without any image file; labels 0, 2, 3 all the same. *)
Definition empty_world : world Z := {|
  w_listing := λ _, inr [];
  w_labels := λ _ _, inr ([0; 2; 3], 1);
  w_info := λ _, inl (LibraryError "get_volume_info");
  w_volume := λ _, inl (LibraryError "load_volume");
  w_draw := λ _ _ size, replicate (Z.to_nat size) 0
|}.

(** The path and the volume behind a drawn index. *)
Definition path_at (paths : list string) (idx : Z) : string :=
  default "" (paths !! Z.to_nat idx).

Definition stored_volume {voxel} (w : world voxel) (paths : list string) (idx : Z)
    : ndarray voxel :=
  match w_volume w (path_at paths idx) with
  | inr x => x
  | inl _ => {| shape := []; data := [] |}
  end.

(** The effects of one pull: one draw, then for every drawn index the
    image and the label map under that index. *)
Definition pull_trace {voxel} (w : world voxel) (path_images path_label_maps : list string)
    (batchsize : Z) (call : nat) : list event :=
  EvRandint (Z.of_nat (length path_label_maps)) batchsize
  :: flat_map (λ idx, [EvLoadVolume (path_at path_images idx);
                       EvLoadVolume (path_at path_label_maps idx)])
       (w_draw w call (Z.of_nat (length path_label_maps)) batchsize).

(** The values a pull is to yield: those of the volumes behind the drawn
    indices, one after the other. *)
Definition drawn_data {voxel} (w : world voxel) (paths : list string)
    (n_label_maps : nat) (batchsize : Z) (call : nat) : list voxel :=
  mjoin ((λ idx, data (stored_volume w paths idx))
         <$> w_draw w call (Z.of_nat n_label_maps) batchsize).

(** One readable image header, and a volume that cannot be read. *)
Definition unreadable_world : world Z := {|
  w_listing := λ _, inr ["a"];
  w_labels := λ _ _, inr ([0; 2; 3], 1);
  w_info := λ _, inr {| vi_shape := [2; 2; 2]; vi_n_dims := 3; vi_n_channels := 1 |};
  w_volume := λ _, inl (LibraryError "load_volume");
  w_draw := λ _ _ size, replicate (Z.to_nat size) 0
|}.

(** Two folders with the same two files; 100x100x100 single-channel
    headers. *)
Definition paired_world : world Z := {|
  w_listing := λ _, inr ["a"; "b"];
  w_labels := λ _ _, inr ([0; 2; 3], 1);
  w_info := λ _, inr {| vi_shape := [100; 100; 100]; vi_n_dims := 3; vi_n_channels := 1 |};
  w_volume := λ _, inr {| shape := [100; 100; 100]; data := [] |};
  w_draw := λ _ _ size, replicate (Z.to_nat size) 0
|}.

(** * Properties *)

Example get_shapes_native_32 :
  get_shapes [100; 100; 100] None (Some 32) = ([], inr [96; 96; 96]).
Proof. vm_compute. reflexivity. Qed.

Example get_shapes_clamp_print :
  get_shapes [100; 100; 100] (Some [120; 80; 80]) (Some 32)
  = ([EvPrint "crop_shape [100, 80, 80] not divisible by 32, changed to [96, 64, 64]"],
     inr [96; 64; 64]).
Proof. vm_compute. reflexivity. Qed.


(** ** The monad *)

Lemma bind_ret {A B} (a : A) (f : A → M B) : mret a ≫= f = f a.
Proof. unfold mbind, M_bind, mret, M_ret. simpl. by destruct (f a). Qed.

Lemma bind_raise {A B} (e : exn) (f : A → M B) : raise e ≫= f = raise e.
Proof. reflexivity. Qed.

Lemma outcome_bind {A B} (m : M A) (f : A → M B) :
  outcome (m ≫= f) = match outcome m with
                     | inl e => inl e
                     | inr a => outcome (f a)
                     end.
Proof. unfold outcome, mbind, M_bind. by destruct (m.2). Qed.

Lemma mapM_ret {A B} (f : A → M B) (g : A → B) (l : list A) :
  Forall (λ x, f x = mret (g x)) l → mapM f l = mret (g <$> l).
Proof.
  induction 1 as [|x l Hx _ IH]; [done|].
  cbn [mapM]. rewrite Hx, bind_ret, IH, bind_ret. done.
Qed.

Lemma py_index_lookup {A} (l : list A) i a : l !! i = Some a → py_index l i = mret a.
Proof. unfold py_index. by intros ->. Qed.

(** ** [get_shapes] *)

Lemma find_closest_nonzero n m :
  m ≠ 0 → find_closest_number_divisible_by_m n m = mret (round_down m n).
Proof. intros Hm. unfold find_closest_number_divisible_by_m. by rewrite bool_decide_eq_false_2. Qed.

Lemma round_all m (l : list Z) :
  m ≠ 0 →
  mapM (λ s, find_closest_number_divisible_by_m s m) l = mret (round_down m <$> l).
Proof.
  intros Hm. apply mapM_ret, Forall_forall. intros s _. by apply find_closest_nonzero.
Qed.

Lemma clamp_crop_shape_zip (im_shape crop_shape : list Z) :
  length crop_shape = length im_shape →
  clamp_crop_shape im_shape crop_shape (length im_shape)
  = mret (zip_with Z.min im_shape crop_shape).
Proof.
  intros Hlen. unfold clamp_crop_shape.
  rewrite (mapM_ret _ (λ i, Z.min (im_shape !!! i) (crop_shape !!! i))).
  - f_equal. apply list_eq. intros i.
    rewrite list_lookup_fmap, lookup_zip_with.
    destruct (decide (i < length im_shape)%nat) as [Hi|Hi].
    + rewrite lookup_seq_lt by done. simpl.
      destruct (lookup_lt_is_Some_2 im_shape i Hi) as [a Ha].
      destruct (lookup_lt_is_Some_2 crop_shape i ltac:(lia)) as [b Hb].
      rewrite Ha, Hb. simpl.
      by rewrite (list_lookup_total_correct _ _ _ Ha), (list_lookup_total_correct _ _ _ Hb).
    + rewrite lookup_seq_ge by lia. simpl.
      by rewrite (lookup_ge_None_2 im_shape i) by lia.
  - apply Forall_forall. intros i [_ Hi]%elem_of_seq. simpl in Hi.
    destruct (lookup_lt_is_Some_2 im_shape i Hi) as [a Ha].
    destruct (lookup_lt_is_Some_2 crop_shape i ltac:(lia)) as [b Hb].
    rewrite (py_index_lookup _ _ _ Ha), bind_ret, (py_index_lookup _ _ _ Hb), bind_ret.
    by rewrite (list_lookup_total_correct _ _ _ Ha), (list_lookup_total_correct _ _ _ Hb).
Qed.

(** What [get_shapes] computes once its helpers are unfolded. *)
Lemma get_shapes_no_crop_div im_shape n :
  n ≠ 0 → get_shapes im_shape None (Some n) = mret (round_down n <$> im_shape).
Proof.
  intros Hn. unfold get_shapes, reformat_to_list. rewrite bind_ret. by apply round_all.
Qed.

Lemma get_shapes_no_crop_no_div im_shape :
  get_shapes im_shape None None = mret im_shape.
Proof. reflexivity. Qed.

Lemma get_shapes_crop_no_div im_shape crop_shape :
  length crop_shape = length im_shape →
  get_shapes im_shape (Some crop_shape) None = mret (zip_with Z.min im_shape crop_shape).
Proof.
  intros Hlen. unfold get_shapes, reformat_to_list. rewrite bind_ret.
  rewrite bool_decide_eq_true_2 by done. rewrite bind_ret.
  rewrite clamp_crop_shape_zip by done. by rewrite bind_ret.
Qed.

Lemma get_shapes_crop_div im_shape crop_shape n :
  length crop_shape = length im_shape → n ≠ 0 →
  get_shapes im_shape (Some crop_shape) (Some n)
  = if bool_decide (zip_with Z.min im_shape crop_shape
                    ≠ round_down n <$> zip_with Z.min im_shape crop_shape)
    then ([EvPrint (not_divisible_message (zip_with Z.min im_shape crop_shape) n
                      (round_down n <$> zip_with Z.min im_shape crop_shape))],
          inr (round_down n <$> zip_with Z.min im_shape crop_shape))
    else mret (zip_with Z.min im_shape crop_shape).
Proof.
  intros Hlen Hn. unfold get_shapes, reformat_to_list. rewrite bind_ret.
  rewrite bool_decide_eq_true_2 by done. rewrite bind_ret.
  rewrite clamp_crop_shape_zip by done. rewrite bind_ret.
  rewrite round_all by done. rewrite bind_ret.
  by case_bool_decide.
Qed.

Lemma round_down_largest m n : 0 < m → largest_multiple_at_most m n (round_down m n).
Proof.
  intros Hm. unfold largest_multiple_at_most, round_down. split_and!.
  - apply Z.divide_factor_l.
  - apply Z.mul_div_le. lia.
  - intros k [q ->] Hk.
    rewrite (Z.mul_comm q m). apply Z.mul_le_mono_nonneg_l; [lia|].
    apply Z.div_le_lower_bound; lia.
Qed.

Lemma round_down_le m n : 0 < m → round_down m n ≤ n.
Proof. intros Hm. by apply round_down_largest. Qed.

Lemma Forall2_fmap_largest m (l : list Z) :
  0 < m → Forall2 (largest_multiple_at_most m) l (round_down m <$> l).
Proof.
  intros Hm. apply Forall2_fmap_r, Forall_Forall2_diag, Forall_forall.
  intros x _. by apply round_down_largest.
Qed.

Lemma clamped_le_native (im_shape crop_shape : list Z) :
  length crop_shape = length im_shape →
  Forall2 Z.le (zip_with Z.min im_shape crop_shape) im_shape.
Proof.
  revert crop_shape. induction im_shape as [|a im IH]; intros [|b c] Hlen;
    simplify_eq/=; constructor; [lia | by apply IH].
Qed.

Lemma rounded_le (m : Z) (l l' : list Z) :
  0 < m → Forall2 Z.le l l' → Forall2 Z.le (round_down m <$> l) l'.
Proof.
  intros Hm. induction 1 as [|x y l l' Hxy _ IH]; simpl; constructor; [|done].
  pose proof (round_down_le m x Hm). lia.
Qed.

(** C1: with a positive [output_div_by_n], [get_shapes] returns, on every
    axis, the largest multiple of [output_div_by_n] that does not exceed the
    requested size clamped to the native size (the native size itself when
    no crop shape is requested); native shape (100,100,100) with no crop
    shape and [output_div_by_n=32] resolves to (96,96,96). *)
Theorem get_shapes_largest_multiple im_shape crop_shape n :
  0 < n →
  (∀ c, crop_shape = Some c → length c = length im_shape) →
  (∃ r, outcome (get_shapes im_shape crop_shape (Some n)) = inr r ∧
        Forall2 (largest_multiple_at_most n) (requested_shape im_shape crop_shape) r)
  ∧ outcome (get_shapes [100; 100; 100] None (Some 32)) = inr [96; 96; 96].
Proof.
  intros Hn Hlen. split; [|by vm_compute].
  destruct crop_shape as [c|]; unfold requested_shape.
  - rewrite get_shapes_crop_div by (auto; lia).
    case_bool_decide as Hne.
    + eexists. split; [done|]. by apply Forall2_fmap_largest.
    + eexists. split; [done|].
      rewrite Hne at 2. by apply Forall2_fmap_largest.
  - rewrite get_shapes_no_crop_div by lia.
    eexists. split; [done|]. by apply Forall2_fmap_largest.
Qed.

Lemma get_shapes_largest_multiple_witness :
  0 < 32 ∧
  (∀ c, Some [120; 80; 80] = Some c → length c = length [100; 100; 100]) ∧
  (∃ r, outcome (get_shapes [100; 100; 100] (Some [120; 80; 80]) (Some 32)) = inr r ∧
        Forall2 (largest_multiple_at_most 32)
                (requested_shape [100; 100; 100] (Some [120; 80; 80])) r)
  ∧ outcome (get_shapes [100; 100; 100] None (Some 32)) = inr [96; 96; 96].
Proof.
  assert (H1 : 0 < 32) by lia.
  assert (H2 : ∀ c, Some [120; 80; 80] = Some c → length c = length [100; 100; 100])
    by (intros c [= <-]; reflexivity).
  exact (conj H1 (conj H2
    (get_shapes_largest_multiple [100; 100; 100] (Some [120; 80; 80]) 32 H1 H2))).
Defined.

(** C2: a requested crop shape of the native dimensionality is first clamped
    axis by axis to the native size (elementwise minimum), the divisibility
    rounding works on the clamped shape, and the resolved shape exceeds the
    native shape on no axis; (120,80,80) on (100,100,100) clamps to
    (100,80,80). *)
Theorem get_shapes_clamps_first im_shape crop_shape div :
  length crop_shape = length im_shape →
  (∀ n, div = Some n → 0 < n) →
  clamp_crop_shape im_shape crop_shape (length im_shape)
    = mret (zip_with Z.min im_shape crop_shape)
  ∧ (∃ r, outcome (get_shapes im_shape (Some crop_shape) div) = inr r
        ∧ r = match div with
              | Some n => round_down n <$> zip_with Z.min im_shape crop_shape
              | None => zip_with Z.min im_shape crop_shape
              end
        ∧ Forall2 Z.le r im_shape)
  ∧ clamp_crop_shape [100; 100; 100] [120; 80; 80] 3 = mret [100; 80; 80]
  ∧ outcome (get_shapes [100; 100; 100] (Some [120; 80; 80]) None) = inr [100; 80; 80].
Proof.
  intros Hlen Hdiv. split_and!; [by apply clamp_crop_shape_zip| |by vm_compute..].
  destruct div as [n|].
  - specialize (Hdiv n eq_refl).
    rewrite get_shapes_crop_div by (auto; lia).
    exists (round_down n <$> zip_with Z.min im_shape crop_shape).
    split_and!; [|done|].
    + case_bool_decide as Hne; [done|]. simpl. by rewrite <- Hne.
    + apply rounded_le; [done|]. by apply clamped_le_native.
  - rewrite get_shapes_crop_no_div by done.
    eexists. split_and!; [done..|]. by apply clamped_le_native.
Qed.

Lemma get_shapes_clamps_first_witness :
  clamp_crop_shape [100; 100; 100] [120; 80; 80] (length [100; 100; 100])
    = mret (zip_with Z.min [100; 100; 100] [120; 80; 80])
  ∧ (∃ r, outcome (get_shapes [100; 100; 100] (Some [120; 80; 80]) (Some 32)) = inr r
        ∧ r = round_down 32 <$> zip_with Z.min [100; 100; 100] [120; 80; 80]
        ∧ Forall2 Z.le r [100; 100; 100])
  ∧ clamp_crop_shape [100; 100; 100] [120; 80; 80] 3 = mret [100; 80; 80]
  ∧ outcome (get_shapes [100; 100; 100] (Some [120; 80; 80]) None) = inr [100; 80; 80].
Proof.
  apply (get_shapes_clamps_first [100; 100; 100] [120; 80; 80] (Some 32)).
  - reflexivity.
  - intros n [= <-]. lia.
Defined.

(** C7, as stated, fails: the request (120,80,80) on a native shape
    (100,100,100) with no divisibility requirement is clamped to (100,80,80)
    and nothing is printed. *)
Lemma get_shapes_silent_clamp : ¬ every_correction_is_reported.
Proof.
  intros H.
  apply (H [100; 100; 100] (Some [120; 80; 80]) None [100; 80; 80]); by vm_compute.
Qed.

(** C7, amended: for shapes of the native dimensionality and a positive
    [output_div_by_n], [get_shapes] never fails, and it prints its one
    message exactly when a crop shape is requested, a divisibility
    requirement is given and the rounding changes the clamped crop shape;
    clamping alone, and rounding the native shape when no crop shape is
    requested, print nothing. *)
Theorem get_shapes_prints_only_on_rounded_request im_shape crop_shape div :
  (∀ c, crop_shape = Some c → length c = length im_shape) →
  (∀ n, div = Some n → 0 < n) →
  (∃ r, outcome (get_shapes im_shape crop_shape div) = inr r)
  ∧ trace (get_shapes im_shape crop_shape div)
    = match crop_shape, div with
      | Some c, Some n =>
          let clamped := zip_with Z.min im_shape c in
          let tmp_shape := round_down n <$> clamped in
          if bool_decide (clamped ≠ tmp_shape)
          then [EvPrint (not_divisible_message clamped n tmp_shape)]
          else []
      | _, _ => []
      end.
Proof.
  intros Hlen Hdiv. destruct crop_shape as [c|], div as [n|].
  - rewrite get_shapes_crop_div by (auto; specialize (Hdiv n eq_refl); lia).
    cbv zeta. case_bool_decide; eauto.
  - rewrite get_shapes_crop_no_div by auto. eauto.
  - rewrite get_shapes_no_crop_div by (specialize (Hdiv n eq_refl); lia). eauto.
  - rewrite get_shapes_no_crop_no_div. eauto.
Qed.

Lemma get_shapes_prints_only_on_rounded_request_witness :
  (∃ r, outcome (get_shapes [100; 100; 100] (Some [120; 80; 80]) (Some 32)) = inr r)
  ∧ trace (get_shapes [100; 100; 100] (Some [120; 80; 80]) (Some 32))
    = let clamped := zip_with Z.min [100; 100; 100] [120; 80; 80] in
      let tmp_shape := round_down 32 <$> clamped in
      if bool_decide (clamped ≠ tmp_shape)
      then [EvPrint (not_divisible_message clamped 32 tmp_shape)]
      else [].
Proof.
  apply (get_shapes_prints_only_on_rounded_request
           [100; 100; 100] (Some [120; 80; 80]) (Some 32)).
  - intros c [= <-]. reflexivity.
  - intros n [= <-]. lia.
Defined.

(** ** Label remapping *)

Lemma forward_from_lookup (i : Z) (labels : list Z) (j : nat) (x : Z) :
  NoDup labels → labels !! j = Some x →
  forward_from i labels !! x = Some (i + Z.of_nat j).
Proof.
  intros Hnd. revert i j. induction Hnd as [|y l Hy _ IH]; intros i j Hj; [done|].
  destruct j as [|j]; simplify_eq/=.
  - rewrite lookup_insert_eq. f_equal. lia.
  - assert (x ≠ y) as Hne.
    { intros ->. apply Hy. by eapply list_elem_of_lookup_2. }
    rewrite lookup_insert_ne by done. rewrite (IH (i + 1) j Hj). f_equal. lia.
Qed.

Lemma inverse_from_lookup (i : Z) (labels : list Z) (j : nat) :
  inverse_from i labels !! (i + Z.of_nat j) = labels !! j.
Proof.
  revert i j. induction labels as [|y l IH]; intros i j; [done|].
  destruct j as [|j]; simpl.
  - replace (i + Z.of_nat 0) with i by lia. by rewrite lookup_insert_eq.
  - rewrite lookup_insert_ne by lia.
    replace (i + Z.of_nat (S j)) with (i + 1 + Z.of_nat j) by lia. apply IH.
Qed.

Lemma elem_of_canonical_order (label_list : list Z) (x : Z) :
  x ∈ canonical_order label_list ↔ x ∈ label_list.
Proof.
  unfold canonical_order. rewrite elem_of_app, merge_sort_Permutation, list_elem_of_filter.
  case_bool_decide as H0; [rewrite list_elem_of_singleton|rewrite elem_of_nil];
    destruct (decide (x = 0)) as [->|]; tauto.
Qed.

Lemma NoDup_canonical_order (label_list : list Z) :
  NoDup label_list → NoDup (canonical_order label_list).
Proof.
  intros Hnd. unfold canonical_order. apply NoDup_app. split_and!.
  - case_bool_decide; [apply NoDup_singleton|apply NoDup_nil_2].
  - intros x Hx. rewrite merge_sort_Permutation, list_elem_of_filter.
    case_bool_decide; [apply list_elem_of_singleton in Hx|by apply elem_of_nil in Hx].
    tauto.
  - rewrite merge_sort_Permutation. by apply NoDup_filter.
Qed.

Lemma canonical_order_zero_first (label_list : list Z) :
  0 ∈ label_list → canonical_order label_list !! 0%nat = Some 0.
Proof. intros H0. unfold canonical_order. by rewrite bool_decide_eq_true_2. Qed.

Lemma rearrange_label_list_ok (label_list : list Z) :
  label_list ≠ [] → NoDup label_list →
  rearrange_label_list label_list
  = mret (Z.of_nat <$> seq 0 (length (canonical_order label_list)),
          {| lut_forward := forward_from 0 (canonical_order label_list);
             lut_inverse := inverse_from 0 (canonical_order label_list) |}).
Proof.
  intros Hne Hnd. unfold rearrange_label_list.
  rewrite bool_decide_eq_false_2 by done. by rewrite bool_decide_eq_true_2.
Qed.

Lemma decode_encode_value (labels : list Z) (v : Z) :
  NoDup labels → v ∈ labels →
  default 0 (table_lookup (TableList labels)
               (default 0 (lut_forward (lookup_table_of labels) !! v))) = v.
Proof.
  intros Hnd [j Hj]%elem_of_canonical_order%list_elem_of_lookup_1. simpl.
  rewrite (forward_from_lookup 0 _ j v (NoDup_canonical_order _ Hnd) Hj). simpl.
  by rewrite inverse_from_lookup, Hj.
Qed.

(** C8: for every duplicate-free label list with a zero label, the table
    puts 0 at dense index 0, looking an id of the list up forward and then
    back through the inverse gives the id, and in the pipeline the decode
    stage ([convert_labels] with the caller's [segmentation_labels], which
    inverts the table of that list) restores every id of the list that the
    encode stage ([convert_labels] with the lut) encoded, whatever the
    order of the list. *)
Theorem label_lookup_roundtrip (segmentation_labels : list Z) :
  0 ∈ segmentation_labels → NoDup segmentation_labels →
  ∃ new_seg_labels lut,
    rearrange_label_list segmentation_labels = mret (new_seg_labels, lut)
    ∧ lut_forward lut !! 0 = Some 0
    ∧ (∀ id, id ∈ segmentation_labels →
         ∃ n, lut_forward lut !! id = Some n ∧ lut_inverse lut !! n = Some id)
    ∧ (∀ label_map, Forall (λ v, v ∈ segmentation_labels) label_map →
         ∃ encoded, encode_labels segmentation_labels label_map = mret encoded
                    ∧ decode_labels segmentation_labels encoded = label_map).
Proof.
  intros H0 Hnd.
  assert (segmentation_labels ≠ []) as Hne by (intros ->; by apply elem_of_nil in H0).
  pose proof (NoDup_canonical_order _ Hnd) as Hndc.
  do 2 eexists. split; [by apply rearrange_label_list_ok|]. simpl. split_and!.
  - rewrite (forward_from_lookup 0 _ 0 0 Hndc (canonical_order_zero_first _ H0)). done.
  - intros id [j Hj]%elem_of_canonical_order%list_elem_of_lookup_1.
    exists (0 + Z.of_nat j). split.
    + by apply forward_from_lookup.
    + by rewrite inverse_from_lookup.
  - intros label_map Hall. unfold encode_labels.
    rewrite rearrange_label_list_ok by done. rewrite bind_ret.
    eexists. split; [done|].
    unfold decode_labels, convert_labels_values. rewrite <- list_fmap_compose.
    induction Hall as [|v l Hv _ IH]; [done|].
    cbn [fmap list_fmap]. f_equal; [|apply IH].
    unfold compose. by apply decode_encode_value.
Qed.

Lemma label_lookup_roundtrip_witness :
  ∃ new_seg_labels lut,
    rearrange_label_list [0; 14; 2; 41] = mret (new_seg_labels, lut)
    ∧ lut_forward lut !! 0 = Some 0
    ∧ (∀ id, id ∈ [0; 14; 2; 41] →
         ∃ n, lut_forward lut !! id = Some n ∧ lut_inverse lut !! n = Some id)
    ∧ (∀ label_map, Forall (λ v, v ∈ [0; 14; 2; 41]) label_map →
         ∃ encoded, encode_labels [0; 14; 2; 41] label_map = mret encoded
                    ∧ decode_labels [0; 14; 2; 41] encoded = label_map).
Proof.
  apply (label_lookup_roundtrip [0; 14; 2; 41]).
  - repeat constructor.
  - apply (bool_decide_unpack _). vm_compute. reflexivity.
Defined.

Example decode_neutral_first_list :
  encode_labels [0; 14; 2; 41] [14; 0; 41; 2; 7] = mret [2; 0; 3; 1; 0]
  ∧ decode_labels [0; 14; 2; 41] [2; 0; 3; 1; 0] = [14; 0; 41; 2; 0].
Proof. by vm_compute. Qed.

(** ** The augmentation graph *)

Lemma apply_layer_neq (l : layer) (t : tensor) : apply_layer l t ≠ t.
Proof.
  intros H. apply (f_equal t_history), (f_equal length) in H.
  simpl in H. rewrite length_app in H. simpl in H. lia.
Qed.

Lemma ret_neq {A} (x y : A) : x ≠ y → (mret x : M A) ≠ mret y.
Proof. intros Hne [= ?]. done. Qed.

Lemma load_bind_neq {A} (globals : list string) (name : string) (f : unit → M A) (y : A) :
  f tt ≠ mret y → load_global globals name ≫= f ≠ mret y.
Proof.
  intros Hne. unfold load_global. case_bool_decide.
  - by rewrite bind_ret.
  - by rewrite bind_raise.
Qed.

Lemma pair_layer_neq (l : layer) (labels image : tensor) :
  (apply_layer l labels, apply_layer l image) ≠ (labels, image).
Proof. intros [= H1 H2]. by apply apply_layer_neq in H1. Qed.

Lemma cast_layer_neq (l : layer) (dt : dtype) (name : string) (image : tensor) :
  apply_layer (Cast dt name) (apply_layer l image) ≠ image.
Proof.
  intros H. apply (f_equal t_history), (f_equal length) in H.
  simpl in H. rewrite !length_app in H. simpl in H. lia.
Qed.

Lemma is_not_False_false (v : pyval) : is_not_False v = false ↔ v = PyBool false.
Proof. destruct v as [|[]| |]; simpl; split; congruence. Qed.

Lemma deformation_stage_skipped globals a labels image :
  deformation_stage globals a labels image = mret (labels, image)
  ↔ scaling_bounds a = PyBool false ∧ rotation_bounds a = PyBool false
    ∧ shearing_bounds a = PyBool false ∧ translation_bounds a = PyBool false
    ∧ nonlin_std a = PyBool false.
Proof.
  unfold deformation_stage. rewrite <- !is_not_False_false.
  destruct (is_not_False (scaling_bounds a)), (is_not_False (rotation_bounds a)),
    (is_not_False (shearing_bounds a)), (is_not_False (translation_bounds a)),
    (is_not_False (nonlin_std a)); simpl;
    (split; [intros H | intros (?&?&?&?&?)]); try done;
    exfalso; revert H; apply load_bind_neq, ret_neq, pair_layer_neq.
Qed.

Lemma crop_stage_skipped globals crop_shape im_shape labels image :
  crop_stage globals crop_shape im_shape labels image = mret (labels, image)
  ↔ crop_shape = im_shape.
Proof.
  unfold crop_stage. case_bool_decide as Hc; split; try done.
  intros H. exfalso. revert H. apply load_bind_neq, ret_neq, pair_layer_neq.
Qed.

Lemma flip_stage_skipped globals a n_dims new_seg_labels labels image :
  flip_stage globals a n_dims new_seg_labels labels image = mret (labels, image)
  ↔ flipping a = false.
Proof.
  unfold flip_stage. destruct (flipping a); split; try done.
  intros H. exfalso. revert H.
  unfold py_assert. case_bool_decide; [|by rewrite bind_raise].
  rewrite bind_ret. apply load_bind_neq, load_bind_neq, ret_neq, pair_layer_neq.
Qed.

Lemma gt_zero_false (v : pyval) : gt_zero v = mret false ↔ le_zero v.
Proof.
  destruct v as [|b|z|q]; simpl.
  - split; [intros [=]|done].
  - split; [by intros [= ->]|by intros ->].
  - case_bool_decide; split; try done; lia.
  - destruct (Qlt_le_dec 0 q) as [Hq|Hq]; split; try done.
    intros Hle. exfalso. by apply (Qlt_not_le _ _ Hq).
Qed.

Lemma gt_zero_trace (v : pyval) : trace (gt_zero v) = [].
Proof. by destruct v. Qed.

Lemma bias_stage_skipped globals a image :
  bias_stage globals a image = mret image ↔ le_zero (bias_field_std a).
Proof.
  rewrite <- gt_zero_false. unfold bias_stage.
  pose proof (gt_zero_trace (bias_field_std a)) as Htr.
  destruct (gt_zero (bias_field_std a)) as [tr [e|[|]]]; simpl in Htr; subst tr.
  - split; [|by intros [=]]. unfold mbind, M_bind. simpl. by intros [=].
  - change ([], inr true) with (mret true : M bool). rewrite bind_ret.
    split; [|by intros [=]]. intros H. exfalso. revert H.
    apply load_bind_neq, load_bind_neq, ret_neq, cast_layer_neq.
  - change ([], inr false) with (mret false : M bool). by rewrite bind_ret.
Qed.

(** C3, as stated, fails: with the five deformation bounds set to 0 the
    deformation stage is not skipped. *)
Lemma zero_bounds_do_not_skip_deformation : ¬ disabled_bounds_skip_deformation.
Proof.
  intros H.
  set (a := {| im_shape := [100; 100; 100]; n_channels := 1;
               segmentation_labels := [0; 2; 3]; n_neutral_labels := 1;
               output_shape := None; output_div_by_n := None;
               flipping := false; aff := None;
               scaling_bounds := PyInt 0; rotation_bounds := PyInt 0;
               shearing_bounds := PyInt 0; translation_bounds := PyInt 0;
               nonlin_std := PyInt 0; nonlin_shape_factor := 4 # 100;
               bias_field_std := PyInt 0; bias_shape_factor := 25 # 1000 |}).
  specialize (H (module_globals ++ ["layers"]) a
                (KL_Input [100; 100; 100; 1] "labels_input")
                (KL_Input [100; 100; 100; 1] "image_input")).
  apply deformation_stage_skipped in H; unfold disabled; simpl; auto.
  by destruct H as [[=] _].
Qed.

(** C3, amended: each optional stage hands its input tensors on unchanged
    (same shape, same element type, no layer added) exactly when its gate
    is closed: the spatial deformation when all five of [scaling_bounds],
    [rotation_bounds], [shearing_bounds], [translation_bounds] and
    [nonlin_std] are the value [False] (0 and [None] do not close it), the
    crop when the resolved crop shape is the native shape, the flip when
    [flipping] is false, the bias field when [bias_field_std <= 0]. *)
Theorem optional_stages_skipped globals a crop_shape n_dims new_seg_labels labels image :
  (deformation_stage globals a labels image = mret (labels, image)
   ↔ scaling_bounds a = PyBool false ∧ rotation_bounds a = PyBool false
     ∧ shearing_bounds a = PyBool false ∧ translation_bounds a = PyBool false
     ∧ nonlin_std a = PyBool false)
  ∧ (crop_stage globals crop_shape (im_shape a) labels image = mret (labels, image)
     ↔ crop_shape = im_shape a)
  ∧ (flip_stage globals a n_dims new_seg_labels labels image = mret (labels, image)
     ↔ flipping a = false)
  ∧ (bias_stage globals a image = mret image ↔ le_zero (bias_field_std a)).
Proof.
  split_and!.
  - apply deformation_stage_skipped.
  - apply crop_stage_skipped.
  - apply flip_stage_skipped.
  - apply bias_stage_skipped.
Qed.

Lemma load_global_bound (name : string) :
  name ∈ module_globals → load_global module_globals name = mret tt.
Proof. intros H. unfold load_global. by rewrite bool_decide_eq_true_2. Qed.

Lemma load_layers_unbound :
  load_global module_globals "layers" = raise (NameError "layers").
Proof. by vm_compute. Qed.

Lemma deformation_stage_module a labels image :
  deformation_stage module_globals a labels image
  = if is_not_False (scaling_bounds a) || is_not_False (rotation_bounds a)
       || is_not_False (shearing_bounds a) || is_not_False (translation_bounds a)
       || is_not_False (nonlin_std a)
    then raise (NameError "layers") else mret (labels, image).
Proof.
  unfold deformation_stage. destruct (_ || _); [|done].
  by rewrite load_layers_unbound, bind_raise.
Qed.

Lemma crop_stage_module crop_shape im_shape labels image :
  crop_stage module_globals crop_shape im_shape labels image
  = if bool_decide (crop_shape ≠ im_shape)
    then raise (NameError "layers") else mret (labels, image).
Proof.
  unfold crop_stage. case_bool_decide; [|done].
  by rewrite load_layers_unbound, bind_raise.
Qed.

Lemma flip_stage_module a n_dims new_seg_labels labels image :
  flip_stage module_globals a n_dims new_seg_labels labels image
  = if flipping a
    then match aff a with
         | None => raise (AssertionError "aff should not be None if flipping is True")
         | Some _ => raise (NameError "layers")
         end
    else mret (labels, image).
Proof.
  unfold flip_stage. destruct (flipping a); [|done].
  destruct (aff a); [|done]. unfold py_assert.
  rewrite bool_decide_eq_true_2 by done.
  by rewrite bind_ret, load_layers_unbound, bind_raise.
Qed.

Lemma bias_stage_module a image :
  outcome (bias_stage module_globals a image)
  = match outcome (gt_zero (bias_field_std a)) with
    | inl e => inl e
    | inr true => inl (NameError "layers")
    | inr false => inr image
    end.
Proof.
  unfold bias_stage. rewrite outcome_bind.
  by destruct (outcome (gt_zero (bias_field_std a))) as [e|[|]].
Qed.

Lemma intensity_stage_module image :
  intensity_stage module_globals image = raise (NameError "layers").
Proof. unfold intensity_stage. by rewrite load_layers_unbound, bind_raise. Qed.

Lemma build_augmentation_model_module a :
  outcome (build_augmentation_model module_globals a)
  = match outcome (get_shapes (im_shape a) (output_shape a) (output_div_by_n a)) with
    | inl e => inl e
    | inr crop_shape =>
        match outcome (rearrange_label_list (segmentation_labels a)) with
        | inl e => inl e
        | inr _ =>
            if is_not_False (scaling_bounds a) || is_not_False (rotation_bounds a)
               || is_not_False (shearing_bounds a) || is_not_False (translation_bounds a)
               || is_not_False (nonlin_std a)
            then inl (NameError "layers")
            else if bool_decide (crop_shape ≠ im_shape a) then inl (NameError "layers")
            else if flipping a then
              match aff a with
              | None => inl (AssertionError "aff should not be None if flipping is True")
              | Some _ => inl (NameError "layers")
              end
            else match outcome (gt_zero (bias_field_std a)) with
                 | inl e => inl e
                 | inr _ => inl (NameError "layers")
                 end
        end
    end.
Proof.
  unfold build_augmentation_model.
  rewrite (load_global_bound "utils") by set_solver. rewrite bind_ret.
  unfold reformat_to_list at 1. rewrite bind_ret.
  rewrite (load_global_bound "get_shapes") by set_solver. rewrite bind_ret.
  rewrite outcome_bind.
  destruct (outcome (get_shapes _ _ _)) as [e|crop_shape]; [done|].
  rewrite outcome_bind.
  destruct (outcome (rearrange_label_list _)) as [e|[new_seg_labels lut]]; [done|].
  rewrite (load_global_bound "KL") by set_solver. rewrite bind_ret.
  rewrite (load_global_bound "l2i_et") by set_solver. rewrite bind_ret.
  rewrite outcome_bind, deformation_stage_module.
  destruct (_ || _); [done|]. cbn [outcome mret M_ret snd].
  rewrite outcome_bind, crop_stage_module.
  case_bool_decide; [done|]. cbn [outcome mret M_ret snd].
  rewrite outcome_bind, flip_stage_module.
  destruct (flipping a); [by destruct (aff a)|]. cbn [outcome mret M_ret snd].
  rewrite outcome_bind, bias_stage_module.
  destruct (outcome (gt_zero _)) as [e|[|]]; [done..|].
  by rewrite outcome_bind, intensity_stage_module.
Qed.

(** C10, as stated, fails: with the deformation switched off, no crop, and
    the defaults [flipping=True] and [aff=None], the call stops at the
    assertion of line 198, with an AssertionError and not a NameError. *)
Lemma AssertionError_before_NameError : ¬ always_NameError.
Proof.
  intros H. destruct (H (all_switched_off None)) as [name Hname].
  by vm_compute in Hname.
Qed.

(** C10, amended: no call of [build_augmentation_model] returns a model.
    The call raises NameError for [layers], at the latest at the
    unconditional intensity augmentation, unless a statement before the
    first use of [layers] raises first: [get_shapes] or
    [rearrange_label_list] on their arguments, the assertion on [aff] when
    flipping is on while deformation and crop are skipped, or the
    comparison [bias_field_std > 0] on [None]. With [get_shapes] and
    [rearrange_label_list] succeeding and one deformation bound other than
    [False], the exception is the NameError for [layers]. *)
Theorem build_augmentation_model_never_returns (a : augmentation_args) :
  ∃ e, outcome (build_augmentation_model module_globals a) = inl e
    ∧ (e = NameError "layers"
       ∨ outcome (get_shapes (im_shape a) (output_shape a) (output_div_by_n a)) = inl e
       ∨ outcome (rearrange_label_list (segmentation_labels a)) = inl e
       ∨ (flipping a = true ∧ aff a = None
          ∧ e = AssertionError "aff should not be None if flipping is True")
       ∨ (bias_field_std a = PyNone ∧ ∃ msg, e = TypeError msg))
    ∧ ((∃ crop_shape,
          outcome (get_shapes (im_shape a) (output_shape a) (output_div_by_n a))
          = inr crop_shape) →
       (∃ tables, outcome (rearrange_label_list (segmentation_labels a)) = inr tables) →
       is_not_False (scaling_bounds a) || is_not_False (rotation_bounds a)
         || is_not_False (shearing_bounds a) || is_not_False (translation_bounds a)
         || is_not_False (nonlin_std a) = true →
       e = NameError "layers").
Proof.
  rewrite build_augmentation_model_module.
  destruct (outcome (get_shapes _ _ _)) as [e|crop_shape].
  { exists e. split_and!; [done|auto|]. by intros [? [=]]. }
  destruct (outcome (rearrange_label_list _)) as [e|tables].
  { exists e. split_and!; [done|auto|]. by intros _ [? [=]]. }
  destruct (_ || _).
  { exists (NameError "layers"). split_and!; auto. }
  case_bool_decide.
  { exists (NameError "layers"). split_and!; auto. }
  destruct (flipping a) eqn:Hflip.
  { destruct (aff a) eqn:Haff; eexists; split_and!; eauto 10; done. }
  destruct (bias_field_std a) as [|b|z|q] eqn:Hstd; simpl;
    eexists; split_and!; eauto 10; done.
Qed.

(** C9: the call that [supervised_training] makes with its default
    arguments on a (100,100,100) single-channel volume reaches the first use
    of [layers] and raises; no model, hence no output of any shape or
    element type, is produced. *)
Theorem build_augmentation_model_default_call_raises :
  build_augmentation_model module_globals supervised_training_defaults
  = raise (NameError "layers").
Proof. by vm_compute. Qed.

(** *** What the builder would return with the three names bound *)

Lemma mapM_length {A B} (f : A → M B) (l : list A) (r : list B) :
  outcome (mapM f l) = inr r → length r = length l.
Proof.
  revert r. induction l as [|x l IH]; intros r; cbn [mapM].
  - by intros [= <-].
  - rewrite outcome_bind. destruct (outcome (f x)) as [e|y]; [done|].
    rewrite outcome_bind. destruct (outcome (mapM f l)) as [e|k]; [done|].
    intros [= <-]. simpl. f_equal. by apply IH.
Qed.

Lemma get_shapes_length im_shape crop_shape div r :
  outcome (get_shapes im_shape crop_shape div) = inr r → length r = length im_shape.
Proof.
  unfold get_shapes, reformat_to_list. rewrite bind_ret.
  destruct crop_shape as [c|].
  - case_bool_decide as Hlen; [|done]. rewrite bind_ret.
    rewrite clamp_crop_shape_zip by done. rewrite bind_ret.
    assert (length (zip_with Z.min im_shape c) = length im_shape) as Hzip.
    { rewrite length_zip_with. lia. }
    destruct div as [n|]; [|by intros [= <-]].
    rewrite outcome_bind.
    destruct (outcome (mapM _ _)) as [e|tmp_shape] eqn:Htmp; [done|].
    apply mapM_length in Htmp.
    case_bool_decide; [|by intros [= <-]].
    rewrite outcome_bind. simpl. intros [= <-]. congruence.
  - destruct div as [n|]; [apply mapM_length|by intros [= <-]].
Qed.

Section NamesBound.
Variable globals : list string.
Hypothesis module_names : module_globals ⊆ globals.
Hypothesis layers_bound : "layers" ∈ globals.
Hypothesis get_ras_axes_bound : "get_ras_axes" ∈ globals.
Hypothesis list_inputs_bound : "list_inputs" ∈ globals.

Lemma load_global_in (name : string) :
  name ∈ globals → load_global globals name = mret tt.
Proof. intros H. unfold load_global. by rewrite bool_decide_eq_true_2. Qed.

Lemma load_module_name (name : string) :
  name ∈ module_globals → load_global globals name = mret tt.
Proof. intros H. apply load_global_in. by apply module_names. Qed.

Lemma stages_keep_contract a labels image_input crop_shape :
  length crop_shape = length (im_shape a) →
  t_shape labels = im_shape a ++ [1] →
  t_shape image_input = im_shape a ++ [n_channels a] →
  (flipping a = true → aff a ≠ None) →
  bias_field_std a ≠ PyNone →
  ∀ new_seg_labels,
  ∃ labels' image',
    outcome ('(labels, image) ← deformation_stage globals a labels image_input;
             '(labels, image) ← crop_stage globals crop_shape (im_shape a) labels image;
             '(labels, image) ← flip_stage globals a (get_dims (im_shape a))
                                   new_seg_labels labels image;
             image ← bias_stage globals a image;
             image ← intensity_stage globals image;
             mret (labels, image)) = inr (labels', image')
    ∧ t_shape labels' = crop_shape ++ [1]
    ∧ t_shape image' = crop_shape ++ [n_channels a]
    ∧ t_dtype image' = float32.
Proof.
  intros Hlen Hl Hi Haff Hstd new_seg_labels.
  unfold deformation_stage, crop_stage, flip_stage, bias_stage, intensity_stage.
  rewrite !(load_global_in "layers") by done.
  rewrite !(load_global_in "get_ras_axes") by done.
  rewrite !(load_module_name "KL") by set_solver.
  assert (∀ c : Z, crop_shape ++ drop (length crop_shape) (im_shape a ++ [c])
                   = crop_shape ++ [c]) as Hdrop.
  { intros c. by rewrite Hlen, drop_app_length. }
  assert (∃ positive, gt_zero (bias_field_std a) = mret positive) as [positive Hgt].
  { destruct (bias_field_std a); simpl; eauto. done. }
  rewrite Hgt.
  destruct (_ || _); rewrite !bind_ret;
    (destruct (decide (crop_shape = im_shape a)) as [Hcrop|Hcrop];
     [rewrite (bool_decide_eq_false_2 (crop_shape ≠ im_shape a)) by auto
     |rewrite (bool_decide_eq_true_2 (crop_shape ≠ im_shape a)) by done]);
    rewrite !bind_ret;
    (destruct (flipping a);
     [destruct (aff a) as [m|]; [|by exfalso; apply Haff]; unfold py_assert;
      rewrite bool_decide_eq_true_2 by done|]); rewrite !bind_ret;
    destruct positive; rewrite !bind_ret;
    do 2 eexists; (split; [reflexivity|]); simpl; rewrite ?Hl, ?Hi, ?Hdrop, ?Hcrop; done.
Qed.

(** With [layers], [get_ras_axes] and [list_inputs] bound, the outputs
    are float32 and int32 tensors of the resolved crop shape. *)
Lemma output_contract_with_names_bound a crop_shape :
  outcome (get_shapes (im_shape a) (output_shape a) (output_div_by_n a)) = inr crop_shape →
  segmentation_labels a ≠ [] → NoDup (segmentation_labels a) →
  (flipping a = true → aff a ≠ None) →
  bias_field_std a ≠ PyNone →
  ∃ m, outcome (build_augmentation_model globals a) = inr m
       ∧ t_dtype (m_image m) = float32 ∧ t_dtype (m_labels m) = int32
       ∧ t_shape (m_image m) = crop_shape ++ [n_channels a]
       ∧ t_shape (m_labels m) = crop_shape ++ [1].
Proof.
  intros Hgs Hne Hnd Haff Hstd.
  pose proof (get_shapes_length _ _ _ _ Hgs) as Hlen.
  unfold build_augmentation_model.
  rewrite (load_module_name "utils") by set_solver. rewrite bind_ret.
  unfold reformat_to_list at 1. rewrite bind_ret.
  rewrite (load_module_name "get_shapes") by set_solver. rewrite bind_ret.
  rewrite outcome_bind, Hgs.
  rewrite rearrange_label_list_ok by done. rewrite bind_ret.
  rewrite (load_module_name "KL") by set_solver. rewrite bind_ret.
  rewrite !(load_module_name "l2i_et") by set_solver. rewrite bind_ret.
  rewrite (load_module_name "Model") by set_solver.
  rewrite (load_global_in "list_inputs") by done.
  set (labels := apply_layer _ (KL_Input _ "labels_input")).
  set (image_input := KL_Input _ "image_input").
  set (new_seg_labels := Z.of_nat <$> _).
  destruct (stages_keep_contract a labels image_input crop_shape Hlen
              eq_refl eq_refl Haff Hstd new_seg_labels)
    as (labels' & image' & Hrun & Hsl & Hsi & Hdt).
  revert Hrun. rewrite !outcome_bind.
  destruct (outcome (deformation_stage _ _ _ _)) as [e|[l1 i1]]; [done|].
  rewrite !outcome_bind.
  destruct (outcome (crop_stage _ _ _ _ _)) as [e|[l2 i2]]; [done|].
  rewrite !outcome_bind.
  destruct (outcome (flip_stage _ _ _ _ _ _)) as [e|[l3 i3]]; [done|].
  rewrite !outcome_bind.
  destruct (outcome (bias_stage _ _ _)) as [e|i4]; [done|].
  rewrite !outcome_bind.
  destruct (outcome (intensity_stage _ _)) as [e|i5]; [done|].
  rewrite !bind_ret. intros [= -> ->].
  eexists. split; [reflexivity|]. simpl. by rewrite Hsl, Hsi, Hdt.
Qed.
End NamesBound.

(** *** The other two unbound names

    Binding [layers] alone would not be enough: the model construction of
    line 221 reads [list_inputs], which no statement of the module binds. *)

Lemma bind_fails {A B} (m : M A) (f : A → M B) :
  (∀ a, ∃ e, outcome (f a) = inl e) → ∃ e, outcome (m ≫= f) = inl e.
Proof.
  intros Hf. rewrite outcome_bind. destruct (outcome m) as [e|a]; [by exists e|apply Hf].
Qed.

Lemma list_inputs_unbound_never_returns (globals : list string) (a : augmentation_args) :
  "list_inputs" ∉ globals →
  ∃ e, outcome (build_augmentation_model globals a) = inl e.
Proof.
  intros Hunbound. unfold build_augmentation_model.
  do 4 (apply bind_fails; intros ?).
  apply bind_fails; intros [new_seg_labels lut].
  do 2 (apply bind_fails; intros ?).
  do 3 (apply bind_fails; intros [? ?]).
  do 4 (apply bind_fails; intros ?).
  unfold load_global. rewrite bool_decide_eq_false_2 by done.
  by exists (NameError "list_inputs").
Qed.

Example get_ras_axes_unbound :
  outcome (build_augmentation_model (module_globals ++ ["layers"]) (all_switched_off (Some eye4)))
  = inl (NameError "get_ras_axes").
Proof. by vm_compute. Qed.

(** ** [supervised_training] *)

Section SupervisedTrainingChecks.
Context {voxel : Type} (w : world voxel).
Variable train : training_args → model → (nat → M (list (list (ndarray voxel)))) → M unit.

Lemma supervised_training_epochs_fail globals a :
  wl2_epochs a ≤ 0 → dice_epochs a ≤ 0 →
  supervised_training w train globals a
  = raise (AssertionError (epochs_message (wl2_epochs a) (dice_epochs a))).
Proof.
  intros H1 H2. unfold supervised_training, py_assert.
  rewrite !bool_decide_eq_false_2 by lia. cbn [orb]. by rewrite bind_raise.
Qed.

Lemma list_images_bind {B} (dir : string) (l : list string) (f : list string → M B) :
  w_listing w dir = inr l →
  list_images_in_folder w dir ≫= f = (EvListImages dir :: trace (f l), outcome (f l)).
Proof. intros H. unfold list_images_in_folder. by rewrite H. Qed.

Lemma supervised_training_counts_fail globals a path_images path_labels :
  w_listing w (image_dir a) = inr path_images →
  w_listing w (labels_dir a) = inr path_labels →
  length path_images ≠ length path_labels →
  bool_decide (0 < wl2_epochs a) || bool_decide (0 < dice_epochs a) = true →
  supervised_training w train globals a
  = ([EvListImages (image_dir a); EvListImages (labels_dir a)],
     inl (AssertionError counts_message)).
Proof.
  intros Hi Hl Hne Hep. unfold supervised_training.
  rewrite Hep. change (py_assert true _) with (mret tt : M unit). rewrite bind_ret.
  rewrite (list_images_bind _ _ _ Hi), (list_images_bind _ _ _ Hl).
  rewrite bool_decide_eq_false_2 by done.
  reflexivity.
Qed.
End SupervisedTrainingChecks.

(** C6: with [wl2_epochs <= 0] and [dice_epochs <= 0] the call fails at its
    first statement with an AssertionError that names both values; no
    folder has been listed and nothing else has been done. *)
Theorem epochs_checked_first {voxel : Type} (w : world voxel)
    (train : training_args → model → (nat → M (list (list (ndarray voxel)))) → M unit)
    (globals : list string) (a : training_args) :
  wl2_epochs a ≤ 0 → dice_epochs a ≤ 0 →
  outcome (supervised_training w train globals a)
  = inl (AssertionError (epochs_message (wl2_epochs a) (dice_epochs a)))
  ∧ trace (supervised_training w train globals a) = [].
Proof. intros H1 H2. by rewrite supervised_training_epochs_fail. Qed.

Lemma epochs_checked_first_witness :
  outcome (supervised_training example_world (λ _ _ _, mret tt) module_globals
             (example_training_args 0 (-3)))
  = inl (AssertionError "either wl2_epochs or dice_epochs must be positive, had 0 and -3")
  ∧ trace (supervised_training example_world (λ _ _ _, mret tt) module_globals
             (example_training_args 0 (-3))) = [].
Proof.
  apply (epochs_checked_first example_world (λ _ _ _, mret tt) module_globals
           (example_training_args 0 (-3))); simpl; lia.
Defined.

(** C5: when the two folders list different numbers of files, the call
    fails during set-up with an AssertionError: the message about the
    counts, right after the two listings, or, when no epoch count is
    positive, the message about the epochs before any listing. Either way
    no index has been drawn and no volume loaded. *)
Theorem file_counts_checked_before_sampling {voxel : Type} (w : world voxel)
    (train : training_args → model → (nat → M (list (list (ndarray voxel)))) → M unit)
    (globals : list string) (a : training_args) (path_images path_labels : list string) :
  w_listing w (image_dir a) = inr path_images →
  w_listing w (labels_dir a) = inr path_labels →
  length path_images ≠ length path_labels →
  supervised_training w train globals a
  = if bool_decide (0 < wl2_epochs a) || bool_decide (0 < dice_epochs a)
    then ([EvListImages (image_dir a); EvListImages (labels_dir a)],
          inl (AssertionError "There should be as many images as label maps."))
    else ([], inl (AssertionError (epochs_message (wl2_epochs a) (dice_epochs a)))).
Proof.
  intros Hi Hl Hne.
  destruct (bool_decide (0 < wl2_epochs a) || bool_decide (0 < dice_epochs a)) eqn:Hep.
  - by eapply supervised_training_counts_fail.
  - apply orb_false_iff in Hep as [H1%bool_decide_eq_false H2%bool_decide_eq_false].
    apply supervised_training_epochs_fail; lia.
Qed.

Lemma file_counts_checked_before_sampling_witness :
  supervised_training example_world (λ _ _ _, mret tt) module_globals
    (example_training_args 5 100)
  = ([EvListImages "images"; EvListImages "labels"],
     inl (AssertionError "There should be as many images as label maps.")).
Proof.
  apply (file_counts_checked_before_sampling example_world (λ _ _ _, mret tt)
           module_globals (example_training_args 5 100) ["a"; "b"; "c"] ["a"; "b"]).
  - reflexivity.
  - reflexivity.
  - simpl. lia.
Defined.

(** ** The batch generator *)

Section GeneratorShapes.
Context {voxel : Type} (w : world voxel).
Variables (path_images path_label_maps : list string) (spatial : list Z) (c : Z).
Hypothesis same_count : length path_images = length path_label_maps.
Hypothesis images_stored : ∀ path, path ∈ path_images →
  ∃ x, w_volume w path = inr x ∧ shape x = stored_image_shape spatial c.
Hypothesis labels_stored : ∀ path, path ∈ path_label_maps →
  ∃ x, w_volume w path = inr x ∧ shape x = spatial.
Hypothesis draws : draws_in_range w.

Lemma expand_dims_front (x : ndarray voxel) :
  expand_dims x 0 = mret {| shape := 1 :: shape x; data := data x |}.
Proof.
  unfold expand_dims.
  rewrite (bool_decide_eq_true_2 (0 ≤ 0)) by lia.
  rewrite bool_decide_eq_true_2 by lia.
  simpl. by rewrite drop_0.
Qed.

Lemma expand_dims_back (x : ndarray voxel) :
  expand_dims x (-1) = mret {| shape := shape x ++ [1]; data := data x |}.
Proof.
  unfold expand_dims.
  rewrite (bool_decide_eq_false_2 (0 ≤ -1)) by lia.
  rewrite bool_decide_eq_true_2 by lia.
  replace (Z.to_nat _) with (length (shape x)) by lia.
  by rewrite firstn_all, drop_all.
Qed.

Lemma add_axis_front (x : ndarray voxel) :
  add_axis x [0] = mret {| shape := 1 :: shape x; data := data x |}.
Proof. cbn [add_axis]. by rewrite expand_dims_front, bind_ret. Qed.

Lemma add_axis_front_back (x : ndarray voxel) :
  add_axis x [0; -1] = mret {| shape := 1 :: shape x ++ [1]; data := data x |}.
Proof.
  cbn [add_axis]. by rewrite expand_dims_front, bind_ret, expand_dims_back, bind_ret.
Qed.

Lemma outcome_load_volume (path : string) :
  outcome (load_volume w path) = w_volume w path.
Proof. unfold load_volume. rewrite outcome_bind. done. Qed.

Lemma py_index_int_in_range {A} (l : list A) (idx : Z) :
  0 ≤ idx < Z.of_nat (length l) →
  ∃ x, py_index_int l idx = mret x ∧ x ∈ l.
Proof.
  intros Hidx. unfold py_index_int. rewrite bool_decide_eq_true_2 by lia.
  destruct (lookup_lt_is_Some_2 l (Z.to_nat idx) ltac:(lia)) as [x Hx].
  exists x. split; [by apply py_index_lookup|by eapply list_elem_of_lookup_2].
Qed.

Lemma load_samples_ok (indices : list Z) (list_images list_label_maps : list (ndarray voxel)) :
  Forall (λ i, 0 ≤ i < Z.of_nat (length path_label_maps)) indices →
  ∃ images labels,
    outcome (load_samples w path_images path_label_maps c indices
               list_images list_label_maps)
    = inr (list_images ++ images, list_label_maps ++ labels)
    ∧ length images = length indices ∧ length labels = length indices
    ∧ Forall (λ x, shape x = 1 :: spatial ++ [channel_axis c]) images
    ∧ Forall (λ x, shape x = 1 :: spatial ++ [1]) labels.
Proof.
  intros Hall. revert list_images list_label_maps.
  induction Hall as [|idx indices Hidx _ IH]; intros list_images list_label_maps.
  - exists [], []. cbn [load_samples]. by rewrite !app_nil_r.
  - cbn [load_samples].
    destruct (py_index_int_in_range path_images idx ltac:(lia)) as (pi & -> & Hpi).
    rewrite bind_ret, outcome_bind, outcome_load_volume.
    destruct (images_stored pi Hpi) as (image & -> & Hshape).
    destruct (py_index_int_in_range path_label_maps idx Hidx) as (pl & Hpl_eq & Hpl).
    destruct (labels_stored pl Hpl) as (labels & Hlabels & Hlshape).
    assert (∃ image', (if bool_decide (1 < c) then add_axis image [0]
                       else add_axis image [0; -1]) = mret image'
                      ∧ shape image' = 1 :: spatial ++ [channel_axis c])
      as (image' & -> & Himage').
    { unfold channel_axis, stored_image_shape in *. case_bool_decide.
      - eexists. split; [apply add_axis_front|]. simpl. by rewrite Hshape.
      - eexists. split; [apply add_axis_front_back|]. simpl. by rewrite Hshape. }
    rewrite bind_ret, Hpl_eq, bind_ret, outcome_bind, outcome_load_volume, Hlabels.
    rewrite add_axis_front_back, bind_ret.
    destruct (IH (list_images ++ [image'])
                 (list_label_maps ++ [{| shape := 1 :: shape labels ++ [1];
                                         data := data labels |}]))
      as (images & labs & -> & Hli & Hll & Hsi & Hsl).
    eexists (image' :: images), (_ :: labs).
    rewrite <- !app_assoc. split; [reflexivity|]. simpl.
    split_and!; [lia..| |]; constructor; try done. simpl. by rewrite Hlshape.
Qed.

Lemma np_concatenate_ok (item : list (ndarray voxel)) (rest : list Z) :
  item ≠ [] → Forall (λ x, shape x = 1 :: rest) item →
  ∃ y, np_concatenate item = mret y ∧ shape y = Z.of_nat (length item) :: rest.
Proof.
  intros Hne Hall. destruct item as [|first item]; [done|].
  unfold np_concatenate. rewrite (Forall_inv Hall).
  rewrite bool_decide_eq_true_2.
  - eexists. split; [reflexivity|]. cbn [shape]. f_equal.
    clear Hne. induction Hall as [|x l Hx _ IH]; [done|].
    rewrite fmap_cons. cbn [foldr]. rewrite IH, Hx. simpl. lia.
  - eapply Forall_impl; [exact Hall|]. simpl. by intros x ->.
Qed.

Lemma next_inputs_ok (batchsize : Z) (call : nat) :
  1 ≤ batchsize → path_label_maps ≠ [] →
  ∃ image labels,
    outcome (next_inputs w path_images path_label_maps batchsize c call)
    = inr [image; labels]
    ∧ shape image = batchsize :: spatial ++ [channel_axis c]
    ∧ shape labels = batchsize :: spatial ++ [1].
Proof.
  intros Hb Hne. unfold next_inputs, npr_randint.
  assert (0 < Z.of_nat (length path_label_maps)) as Hhigh.
  { destruct path_label_maps; [done|]. simpl. lia. }
  destruct (draws call (Z.of_nat (length path_label_maps)) batchsize Hhigh ltac:(lia))
    as [Hlen Hrange].
  rewrite !outcome_bind. cbn [outcome emit snd].
  rewrite (bool_decide_eq_false_2 (batchsize = 0)) by lia.
  rewrite (bool_decide_eq_true_2 (0 < Z.of_nat (length path_label_maps) ∧ 0 < batchsize))
    by lia.
  cbn [outcome mret M_ret snd].
  rewrite outcome_bind.
  destruct (load_samples_ok _ [] [] Hrange)
    as (images & labels & -> & Hli & Hll & Hsi & Hsl).
  cbn [app]. rewrite Hlen in Hli, Hll.
  case_bool_decide as Hbig.
  - destruct (np_concatenate_ok images (spatial ++ [channel_axis c])) as (y & Hy & Hsy);
      [by destruct images; [simpl in Hli; lia|]|done|].
    destruct (np_concatenate_ok labels (spatial ++ [1])) as (z & Hz & Hsz);
      [by destruct labels; [simpl in Hll; lia|]|done|].
    cbn [mapM]. rewrite Hy, bind_ret, Hz, !bind_ret.
    exists y, z. split; [done|]. rewrite Hsy, Hsz, Hli, Hll.
    split; f_equal; lia.
  - assert (batchsize = 1) as -> by lia.
    destruct images as [|image [|??]]; simplify_eq/=.
    destruct labels as [|labs [|??]]; simplify_eq/=.
    exists image, labs. split; [done|].
    by apply Forall_inv in Hsi, Hsl.
Qed.

Lemma generate_ok (batchsize : Z) (call pulls : nat) :
  1 ≤ batchsize → path_label_maps ≠ [] →
  ∃ yielded,
    outcome (generate w path_images path_label_maps batchsize c call pulls) = inr yielded
    ∧ length yielded = pulls
    ∧ Forall (λ list_inputs, ∃ image labels,
                list_inputs = [image; labels]
                ∧ shape image = batchsize :: spatial ++ [channel_axis c]
                ∧ shape labels = batchsize :: spatial ++ [1]) yielded.
Proof.
  intros Hb Hne. revert call. induction pulls as [|pulls IH]; intros call.
  - exists []. by split_and!.
  - cbn [generate]. rewrite outcome_bind.
    destruct (next_inputs_ok batchsize call Hb Hne) as (image & labels & -> & Hs).
    rewrite outcome_bind. destruct (IH (S call)) as (later & -> & Hlen & Hall).
    eexists. split; [reflexivity|]. split; [simpl; lia|].
    constructor; [|done]. by exists image, labels.
Qed.
End GeneratorShapes.

Lemma example_world_draws : draws_in_range example_world.
Proof.
  intros call high size Hhigh Hsize. simpl. split.
  - apply length_replicate.
  - apply Forall_replicate. lia.
Qed.

(** C4, as stated, fails: with [batchsize == 1] and 2x2x2 single-channel
    volumes the yielded arrays have shape (1,2,2,2,1): five axes, the
    leading one put there by [add_axis], and not the four of (2,2,2,1). *)
Lemma single_batch_keeps_leading_axis : ¬ single_batch_has_no_batch_axis.
Proof.
  intros H.
  specialize (H example_world ["a"] ["a"] [2; 2; 2] 1%nat
                [[ {| shape := [1; 2; 2; 2; 1]; data := replicate 8 0 |};
                   {| shape := [1; 2; 2; 2; 1]; data := replicate 8 0 |} ]]).
  assert (Forall (Forall (λ x : ndarray Z, length (shape x) = S (length [2; 2; 2])))
            [[ {| shape := [1; 2; 2; 2; 1]; data := replicate 8 0 |};
               {| shape := [1; 2; 2; 2; 1]; data := replicate 8 0 |} ]]) as Hbad.
  { apply H; [|by vm_compute]. intros path. eexists. split; reflexivity. }
  apply Forall_inv, Forall_inv in Hbad. discriminate Hbad.
Qed.

(** C4, amended: with volumes of one spatial shape behind every path and
    [batchsize >= 1], every pull of the generator yields an image array and
    a label array whose leading axis has size [batchsize]: for
    [batchsize > 1] it comes from concatenating the samples along axis 0,
    and for [batchsize == 1] it is the leading axis of size 1 that
    [add_axis] gave the single sample, which is kept. *)
Theorem yielded_arrays_keep_batch_axis {voxel : Type} (w : world voxel)
    (path_images path_label_maps : list string) (spatial : list Z)
    (path0 : string) (info : volume_info) (batchsize : Z) (pulls : nat) :
  length path_images = length path_label_maps →
  path_images !! 0%nat = Some path0 →
  w_info w path0 = inr info →
  (∀ path, path ∈ path_images →
     ∃ x, w_volume w path = inr x
          ∧ shape x = stored_image_shape spatial (vi_n_channels info)) →
  (∀ path, path ∈ path_label_maps → ∃ x, w_volume w path = inr x ∧ shape x = spatial) →
  draws_in_range w →
  1 ≤ batchsize →
  ∃ yielded,
    outcome (build_model_inputs w path_images path_label_maps batchsize pulls) = inr yielded
    ∧ length yielded = pulls
    ∧ Forall (λ list_inputs, ∃ image labels,
                list_inputs = [image; labels]
                ∧ shape image = batchsize :: spatial ++ [channel_axis (vi_n_channels info)]
                ∧ shape labels = batchsize :: spatial ++ [1]) yielded.
Proof.
  intros Hcount H0 Hinfo Himages Hlabels Hdraws Hb.
  destruct pulls as [|pulls]; [exists []; by split_and!|].
  unfold build_model_inputs. rewrite (py_index_lookup _ _ _ H0), bind_ret.
  unfold get_volume_info. rewrite !outcome_bind. cbn [outcome emit snd lift]. rewrite Hinfo.
  apply (generate_ok w path_images path_label_maps spatial (vi_n_channels info));
    try done.
  intros ->. by destruct path_images.
Qed.

Lemma yielded_arrays_keep_batch_axis_witness :
  ∃ yielded,
    outcome (build_model_inputs example_world ["a"; "b"] ["a"; "b"] 1 2) = inr yielded
    ∧ length yielded = 2%nat
    ∧ Forall (λ list_inputs, ∃ image labels,
                list_inputs = [image; labels]
                ∧ shape image = 1 :: [2; 2; 2] ++ [channel_axis 1]
                ∧ shape labels = 1 :: [2; 2; 2] ++ [1]) yielded.
Proof.
  apply (yielded_arrays_keep_batch_axis example_world ["a"; "b"] ["a"; "b"] [2; 2; 2] "a"
           {| vi_shape := [2; 2; 2]; vi_n_dims := 3; vi_n_channels := 1 |} 1 2).
  - reflexivity.
  - reflexivity.
  - reflexivity.
  - intros path _. eexists. split; reflexivity.
  - intros path _. eexists. split; reflexivity.
  - exact example_world_draws.
  - lia.
Defined.

(** * Further properties of the code *)

(** ** Reading a run backwards *)

Lemma bind_inr {A B} (m : M A) (f : A → M B) (b : B) :
  outcome (m ≫= f) = inr b → ∃ a, outcome m = inr a ∧ outcome (f a) = inr b.
Proof.
  rewrite outcome_bind. destruct (outcome m) as [e|a]; [done|]. intros H. by exists a.
Qed.

Lemma load_global_inr (globals : list string) (name : string) (u : unit) :
  outcome (load_global globals name) = inr u → name ∈ globals.
Proof. unfold load_global. by case_bool_decide. Qed.

Lemma ret_inr {A} (x y : A) : outcome (mret x : M A) = inr y → x = y.
Proof. by intros [= ->]. Qed.

Lemma trace_bind {A B} (m : M A) (f : A → M B) :
  trace (m ≫= f) = match outcome m with
                   | inl _ => trace m
                   | inr a => trace m ++ trace (f a)
                   end.
Proof. unfold trace, outcome, mbind, M_bind. by destruct (m.2). Qed.

Lemma bind_inl {A B} (m : M A) (f : A → M B) (e : exn) :
  outcome m = inl e → m ≫= f = (trace m, inl e).
Proof. unfold outcome, trace, mbind, M_bind. by intros ->. Qed.

(** ** [get_shapes], further *)

Lemma mapM_Forall {A B} (f : A → M B) (P : B → Prop) (l : list A) (r : list B) :
  (∀ x y, outcome (f x) = inr y → P y) →
  outcome (mapM f l) = inr r → Forall P r.
Proof.
  intros Hf. revert r. induction l as [|x l IH]; intros r; cbn [mapM].
  - by intros [= <-].
  - intros (y & Hy & (k & Hk & [= <-])%bind_inr)%bind_inr.
    constructor; [by eapply Hf|by apply IH].
Qed.

Lemma find_closest_divisible (s n r : Z) :
  outcome (find_closest_number_divisible_by_m s n) = inr r → (n | r).
Proof.
  unfold find_closest_number_divisible_by_m. case_bool_decide; [done|].
  intros [= <-]. apply Z.divide_factor_l.
Qed.

Lemma get_shapes_divisible im_shape crop_shape n r :
  outcome (get_shapes im_shape crop_shape (Some n)) = inr r → Forall (λ x, (n | x)) r.
Proof.
  unfold get_shapes, reformat_to_list. rewrite bind_ret.
  destruct crop_shape as [c|].
  - case_bool_decide as Hlen; [|done]. rewrite bind_ret.
    rewrite clamp_crop_shape_zip by done. rewrite bind_ret.
    intros (tmp_shape & Htmp & Hr)%bind_inr.
    apply (mapM_Forall _ (λ x, (n | x))) in Htmp;
      [|intros x y; apply find_closest_divisible].
    revert Hr. case_bool_decide as Hsame.
    + by intros (_ & _ & [= <-])%bind_inr.
    + intros [= <-]. by rewrite Hsame.
  - apply mapM_Forall. intros x y. apply find_closest_divisible.
Qed.

Lemma round_down_fixed (n x : Z) : n ≠ 0 → (n | x) → round_down n x = x.
Proof.
  intros Hn [q ->]. unfold round_down. rewrite Z.div_mul by done. lia.
Qed.

Lemma round_down_fixed_all (n : Z) (l : list Z) :
  n ≠ 0 → Forall (λ x, (n | x)) l → round_down n <$> l = l.
Proof.
  intros Hn. induction 1 as [|x l Hx _ IH]; [done|].
  cbn. by rewrite round_down_fixed, IH.
Qed.

Lemma zip_min_fixed (im_shape r : list Z) :
  Forall2 Z.le r im_shape → zip_with Z.min im_shape r = r.
Proof.
  induction 1 as [|x y r im Hxy _ IH]; [done|]. cbn. rewrite IH. f_equal. lia.
Qed.

Lemma clamped_le_request (im_shape crop_shape : list Z) :
  length crop_shape = length im_shape →
  Forall2 Z.le (zip_with Z.min im_shape crop_shape) crop_shape.
Proof.
  revert crop_shape. induction im_shape as [|a im IH]; intros [|b c] Hlen;
    simplify_eq/=; constructor; [lia | by apply IH].
Qed.

Lemma Forall2_le_refl (l : list Z) : Forall2 Z.le l l.
Proof. apply Forall_Forall2_diag, Forall_forall. intros x _. lia. Qed.

(** What a successful call returned, by cases on the request. *)
Lemma get_shapes_inr im_shape crop_shape div r :
  outcome (get_shapes im_shape crop_shape div) = inr r →
  (∀ n, div = Some n → n ≠ 0) →
  match crop_shape with
  | Some c => length c = length im_shape
  | None => True
  end
  ∧ r = match div with
        | Some n => round_down n <$> requested_shape im_shape crop_shape
        | None => requested_shape im_shape crop_shape
        end.
Proof.
  intros Hr Hdiv. destruct crop_shape as [c|]; unfold requested_shape.
  - assert (length c = length im_shape) as Hlen.
    { revert Hr. unfold get_shapes, reformat_to_list. rewrite bind_ret.
      by case_bool_decide. }
    split; [done|]. destruct div as [n|].
    + rewrite get_shapes_crop_div in Hr by auto.
      revert Hr. case_bool_decide as Hsame; [by intros [= <-]|].
      intros [= <-]. done.
    + rewrite get_shapes_crop_no_div in Hr by done. by injection Hr.
  - split; [done|]. destruct div as [n|].
    + rewrite get_shapes_no_crop_div in Hr by auto. by injection Hr.
    + by injection Hr.
Qed.

(** X1: whenever [get_shapes] returns, whatever the request, the resolved
    shape has as many axes as the native shape, and with an
    [output_div_by_n] given every axis of it is a multiple of
    [output_div_by_n]. *)
Theorem get_shapes_result_wellformed im_shape crop_shape div r :
  outcome (get_shapes im_shape crop_shape div) = inr r →
  length r = length im_shape ∧ ∀ n, div = Some n → Forall (λ x, (n | x)) r.
Proof.
  intros Hr. split; [by eapply get_shapes_length|].
  intros n ->. by eapply get_shapes_divisible.
Qed.

Lemma get_shapes_result_wellformed_witness :
  length [96; 64; 64] = length [100; 100; 100]
  ∧ ∀ n, Some 32 = Some n → Forall (λ x, (n | x)) [96; 64; 64].
Proof.
  apply (get_shapes_result_wellformed [100; 100; 100] (Some [120; 80; 80]) (Some 32)).
  vm_compute. reflexivity.
Defined.

(** X2: a resolved shape is a fixed point. With a positive
    [output_div_by_n], asking [get_shapes] for the shape it resolved, as the
    crop shape on the same volume or as the native shape of a volume, gives
    that shape back and prints nothing. *)
Theorem get_shapes_idempotent im_shape crop_shape n r :
  0 < n →
  outcome (get_shapes im_shape crop_shape (Some n)) = inr r →
  get_shapes im_shape (Some r) (Some n) = mret r
  ∧ get_shapes r None (Some n) = mret r.
Proof.
  intros Hn Hr.
  pose proof (get_shapes_length _ _ _ _ Hr) as Hlen.
  pose proof (get_shapes_divisible _ _ _ _ Hr) as Hdiv.
  assert (Forall2 Z.le r im_shape) as Hle.
  { destruct (get_shapes_inr _ _ _ _ Hr) as [Hc ->]; [intros ? [= <-]; lia|].
    apply rounded_le; [done|]. destruct crop_shape as [c|]; simpl.
    - by apply clamped_le_native.
    - apply Forall2_le_refl. }
  split.
  - rewrite get_shapes_crop_div by (done || lia).
    rewrite (zip_min_fixed _ _ Hle), round_down_fixed_all by (done || lia).
    by rewrite bool_decide_eq_false_2 by auto.
  - rewrite get_shapes_no_crop_div by lia.
    by rewrite round_down_fixed_all by (done || lia).
Qed.

Lemma get_shapes_idempotent_witness :
  get_shapes [100; 100; 100] (Some [96; 64; 64]) (Some 32) = mret [96; 64; 64]
  ∧ get_shapes [96; 64; 64] None (Some 32) = mret [96; 64; 64].
Proof.
  apply (get_shapes_idempotent [100; 100; 100] (Some [120; 80; 80]) 32 [96; 64; 64]).
  - lia.
  - vm_compute. reflexivity.
Defined.

(** X3: the resolved shape never exceeds the request either: with a crop
    shape given and [output_div_by_n] absent or positive, every axis of the
    result is at most the requested size on that axis. *)
Theorem get_shapes_within_request im_shape crop_shape div r :
  (∀ n, div = Some n → 0 < n) →
  outcome (get_shapes im_shape (Some crop_shape) div) = inr r →
  Forall2 Z.le r crop_shape.
Proof.
  intros Hdiv Hr.
  destruct (get_shapes_inr _ _ _ _ Hr) as [Hlen ->].
  { intros n Hn. specialize (Hdiv n Hn). lia. }
  simpl. destruct div as [n|].
  - apply rounded_le; [by apply Hdiv|]. by apply clamped_le_request.
  - by apply clamped_le_request.
Qed.

Lemma get_shapes_within_request_witness :
  Forall2 Z.le [96; 64; 64] [120; 80; 80].
Proof.
  apply (get_shapes_within_request [100; 100; 100] [120; 80; 80] (Some 32) [96; 64; 64]).
  - intros n [= <-]. lia.
  - vm_compute. reflexivity.
Defined.

(** ** [build_augmentation_model], for any set of bound names *)

Lemma aligned_push a lut sp s labels image (l : layer) :
  is_spatial l = true → (∀ s', layer_shape l s' = s') →
  aligned a lut sp s labels image →
  aligned a lut (sp ++ [l]) s (apply_layer l labels) (apply_layer l image).
Proof.
  intros Hl Hshape (Hhl & Hhi & Hsl & Hsi & Hsp). unfold aligned. simpl.
  rewrite Hhl, Hhi, !Hshape, Hsl, Hsi. split_and!; try done.
  apply Forall_app. split; [done|]. by constructor.
Qed.

Lemma deformation_stage_aligned globals a lut sp s labels image labels' image' :
  aligned a lut sp s labels image →
  outcome (deformation_stage globals a labels image) = inr (labels', image') →
  ∃ sp', aligned a lut sp' s labels' image'.
Proof.
  intros Hal. unfold deformation_stage. destruct (_ || _).
  - intros (_ & _ & [= <- <-])%bind_inr. eexists. by apply aligned_push.
  - intros [= <- <-]. by exists sp.
Qed.

Lemma crop_stage_aligned globals a lut sp crop_shape im_shape labels image labels' image' :
  length crop_shape = length im_shape →
  aligned a lut sp im_shape labels image →
  outcome (crop_stage globals crop_shape im_shape labels image) = inr (labels', image') →
  ∃ sp', aligned a lut sp' crop_shape labels' image'.
Proof.
  intros Hlen Hal. unfold crop_stage. case_bool_decide as Hcrop.
  - intros (_ & _ & [= <- <-])%bind_inr.
    destruct Hal as (Hhl & Hhi & Hsl & Hsi & Hsp).
    exists (sp ++ [RandomCrop crop_shape]). unfold aligned. simpl.
    rewrite Hhl, Hhi, Hsl, Hsi, Hlen, !drop_app_length. split_and!; try done.
    apply Forall_app. split; [done|]. by constructor.
  - intros [= <- <-]. exists sp. by subst.
Qed.

Lemma flip_stage_aligned globals a lut sp s n_dims new_seg_labels labels image labels' image' :
  aligned a lut sp s labels image →
  outcome (flip_stage globals a n_dims new_seg_labels labels image) = inr (labels', image') →
  ∃ sp', aligned a lut sp' s labels' image'.
Proof.
  intros Hal. unfold flip_stage. destruct (flipping a).
  - intros (_ & _ & (_ & _ & (_ & _ & [= <- <-])%bind_inr)%bind_inr)%bind_inr.
    eexists. by apply aligned_push.
  - intros [= <- <-]. by exists sp.
Qed.

Lemma bias_stage_inr globals a image image' :
  outcome (bias_stage globals a image) = inr image' →
  t_shape image' = t_shape image
  ∧ ∃ extra, t_history image' = t_history image ++ extra
             ∧ Forall (λ l, is_spatial l = false) extra.
Proof.
  unfold bias_stage. intros ([|] & _ & H)%bind_inr.
  - apply bind_inr in H as (_ & _ & (_ & _ & [= <-])%bind_inr).
    split; [done|]. eexists. simpl. rewrite <- app_assoc. split; [done|].
    by repeat constructor.
  - injection H as <-. split; [done|]. exists []. by rewrite app_nil_r.
Qed.

Lemma intensity_stage_inr globals image image' :
  outcome (intensity_stage globals image) = inr image' →
  "layers" ∈ globals
  ∧ image' = apply_layer (Cast float32 "image_augmented")
               (apply_layer IntensityAugmentation image).
Proof.
  unfold intensity_stage.
  intros (u & Hl%load_global_inr & (_ & _ & [= <-])%bind_inr)%bind_inr. done.
Qed.

(** A returned model, taken apart. *)
Lemma build_augmentation_model_inr globals a m :
  outcome (build_augmentation_model globals a) = inr m →
  ∃ crop_shape lut sp extra,
    outcome (get_shapes (im_shape a) (output_shape a) (output_div_by_n a)) = inr crop_shape
    ∧ Forall (λ l, is_spatial l = true) sp
    ∧ Forall (λ l, is_spatial l = false) extra
    ∧ t_history (m_labels m)
      = [Input "labels_input"; ConvertLabels (TableLut lut)] ++ sp
        ++ [ConvertLabels (TableList (segmentation_labels a)); Cast int32 "labels_out"]
    ∧ t_history (m_image m)
      = [Input "image_input"] ++ sp ++ extra
        ++ [IntensityAugmentation; Cast float32 "image_augmented"; TakeFirst "image_out"]
    ∧ t_shape (m_labels m) = crop_shape ++ [1]
    ∧ t_shape (m_image m) = crop_shape ++ [n_channels a]
    ∧ t_dtype (m_labels m) = int32
    ∧ t_dtype (m_image m) = float32
    ∧ "layers" ∈ globals ∧ "list_inputs" ∈ globals.
Proof.
  unfold build_augmentation_model.
  intros (_ & _ & H)%bind_inr. unfold reformat_to_list at 1 in H. rewrite bind_ret in H.
  apply bind_inr in H as (_ & _ & H).
  apply bind_inr in H as (crop_shape & Hgs & H).
  apply bind_inr in H as ([new_seg_labels lut] & _ & H).
  apply bind_inr in H as (_ & _ & H).
  apply bind_inr in H as (_ & _ & H).
  apply bind_inr in H as ([l1 i1] & H1 & H).
  apply bind_inr in H as ([l2 i2] & H2 & H).
  apply bind_inr in H as ([l3 i3] & H3 & H).
  apply bind_inr in H as (i4 & H4 & H).
  apply bind_inr in H as (i5 & H5 & H).
  apply bind_inr in H as (_ & _ & H).
  apply bind_inr in H as (_ & _ & H).
  apply bind_inr in H as (u & Hli%load_global_inr & [= <-]).
  assert (aligned a lut [] (im_shape a)
            (apply_layer (ConvertLabels (TableLut lut)) (KL_Input (im_shape a ++ [1]) "labels_input"))
            (KL_Input (im_shape a ++ [n_channels a]) "image_input")) as Hal0.
  { unfold aligned. simpl. by split_and!. }
  destruct (deformation_stage_aligned _ _ _ _ _ _ _ _ _ Hal0 H1) as [sp1 Hal1].
  destruct (crop_stage_aligned _ _ _ _ _ _ _ _ _ _
              (get_shapes_length _ _ _ _ Hgs) Hal1 H2) as [sp2 Hal2].
  destruct (flip_stage_aligned _ _ _ _ _ _ _ _ _ _ _ Hal2 H3)
    as [sp3 (Hhl & Hhi & Hsl & Hsi & Hsp)].
  destruct (bias_stage_inr _ _ _ _ H4) as (Hs4 & extra & Hh4 & Hextra).
  destruct (intensity_stage_inr _ _ _ H5) as [Hlayers ->].
  exists crop_shape, lut, sp3, extra. simpl.
  rewrite Hhl, Hh4, Hhi, Hs4, Hsl, Hsi. split_and!; try done.
  all: by rewrite <- ?app_assoc.
Qed.

Lemma default_model_returned :
  outcome (build_augmentation_model bound_globals supervised_training_defaults)
  = inr default_model.
Proof. by vm_compute. Qed.

Lemma filter_spatial_all (sp : list layer) :
  Forall (λ l, is_spatial l = true) sp → filter (λ l, is_spatial l = true) sp = sp.
Proof.
  induction 1 as [|l sp Hl _ IH]; [done|].
  rewrite filter_cons_True by done. by rewrite IH.
Qed.

Lemma filter_spatial_none (extra : list layer) :
  Forall (λ l, is_spatial l = false) extra → filter (λ l, is_spatial l = true) extra = [].
Proof.
  induction 1 as [|l sp Hl _ IH]; [done|].
  rewrite filter_cons_False; [done|]. by rewrite Hl.
Qed.

Lemma spatial_not_intensity (l : layer) : is_spatial l = true → is_intensity l = false.
Proof. by destruct l. Qed.

(** X4: the output contract, for whatever names are bound: if
    [build_augmentation_model] returns a model, [get_shapes] resolved a crop
    shape of the native dimensionality, the image output is float32 of that
    spatial shape with [n_channels] channels, and the label output is int32
    of the same spatial shape with one channel. *)
Theorem returned_model_meets_contract globals a m :
  outcome (build_augmentation_model globals a) = inr m →
  ∃ crop_shape,
    outcome (get_shapes (im_shape a) (output_shape a) (output_div_by_n a)) = inr crop_shape
    ∧ length crop_shape = length (im_shape a)
    ∧ t_shape (m_image m) = crop_shape ++ [n_channels a]
    ∧ t_shape (m_labels m) = crop_shape ++ [1]
    ∧ t_dtype (m_image m) = float32
    ∧ t_dtype (m_labels m) = int32.
Proof.
  intros (crop_shape & lut & sp & extra & Hgs & _ & _ & _ & _ & Hsl & Hsi & Hdl & Hdi & _)
    %build_augmentation_model_inr.
  exists crop_shape. split_and!; try done. by eapply get_shapes_length.
Qed.

Lemma returned_model_meets_contract_witness :
  ∃ crop_shape,
    outcome (get_shapes (im_shape supervised_training_defaults)
               (output_shape supervised_training_defaults)
               (output_div_by_n supervised_training_defaults)) = inr crop_shape
    ∧ length crop_shape = length (im_shape supervised_training_defaults)
    ∧ t_shape (m_image default_model)
      = crop_shape ++ [n_channels supervised_training_defaults]
    ∧ t_shape (m_labels default_model) = crop_shape ++ [1]
    ∧ t_dtype (m_image default_model) = float32
    ∧ t_dtype (m_labels default_model) = int32.
Proof.
  apply (returned_model_meets_contract bound_globals supervised_training_defaults
           default_model).
  vm_compute. reflexivity.
Defined.

(** X5: image and labels stay in register, and the labels keep their
    values' meaning: in a returned model the image went through exactly the
    spatial layers (deformation, crop, flip) the labels went through, in
    the same order, and the labels went through no bias-field or intensity
    layer. *)
Theorem returned_model_keeps_correspondence globals a m :
  outcome (build_augmentation_model globals a) = inr m →
  filter (λ l, is_spatial l = true) (t_history (m_image m))
  = filter (λ l, is_spatial l = true) (t_history (m_labels m))
  ∧ Forall (λ l, is_intensity l = false) (t_history (m_labels m)).
Proof.
  intros (crop_shape & lut & sp & extra & _ & Hsp & Hextra & -> & -> & _)
    %build_augmentation_model_inr.
  split.
  - rewrite !filter_app, (filter_spatial_all sp) by done.
    rewrite !filter_spatial_none by (done || by repeat constructor).
    by rewrite !app_nil_r.
  - repeat (apply Forall_app; split); try by repeat constructor.
    eapply Forall_impl; [exact Hsp|]. apply spatial_not_intensity.
Qed.

Lemma returned_model_keeps_correspondence_witness :
  filter (λ l, is_spatial l = true) (t_history (m_image default_model))
  = filter (λ l, is_spatial l = true) (t_history (m_labels default_model))
  ∧ Forall (λ l, is_intensity l = false) (t_history (m_labels default_model)).
Proof.
  apply (returned_model_keeps_correspondence bound_globals supervised_training_defaults
           default_model).
  vm_compute. reflexivity.
Defined.

(** X6: what the U-Net relies on: if a model is returned for an
    [output_div_by_n] of [n], every spatial axis of both outputs is a
    multiple of [n]. *)
Theorem returned_model_shape_divisible globals a n m :
  output_div_by_n a = Some n →
  outcome (build_augmentation_model globals a) = inr m →
  ∃ spatial,
    t_shape (m_image m) = spatial ++ [n_channels a]
    ∧ t_shape (m_labels m) = spatial ++ [1]
    ∧ Forall (λ x, (n | x)) spatial.
Proof.
  intros Hn (crop_shape & lut & sp & extra & Hgs & _ & _ & _ & _ & Hsl & Hsi & _)
    %build_augmentation_model_inr.
  exists crop_shape. split_and!; try done.
  rewrite Hn in Hgs. by eapply get_shapes_divisible.
Qed.

Lemma returned_model_shape_divisible_witness :
  ∃ spatial,
    t_shape (m_image default_model) = spatial ++ [n_channels supervised_training_defaults]
    ∧ t_shape (m_labels default_model) = spatial ++ [1]
    ∧ Forall (λ x, (32 | x)) spatial.
Proof.
  apply (returned_model_shape_divisible bound_globals supervised_training_defaults 32
           default_model).
  - reflexivity.
  - vm_compute. reflexivity.
Defined.

(** X7: what a returning call needs: [build_augmentation_model] returns a
    model only if [layers] and [list_inputs] are bound, and, with
    [flipping] on, only if [get_ras_axes] is bound as well and [aff] is
    given. *)
Theorem returned_model_needs_names globals a m :
  outcome (build_augmentation_model globals a) = inr m →
  "layers" ∈ globals ∧ "list_inputs" ∈ globals
  ∧ (flipping a = true → "get_ras_axes" ∈ globals ∧ aff a ≠ None).
Proof.
  intros Hm.
  destruct (build_augmentation_model_inr _ _ _ Hm)
    as (_ & _ & _ & _ & _ & _ & _ & _ & _ & _ & _ & _ & _ & Hlayers & Hinputs).
  split_and!; try done. intros Hflip.
  revert Hm. unfold build_augmentation_model.
  intros (_ & _ & H)%bind_inr. unfold reformat_to_list at 1 in H. rewrite bind_ret in H.
  do 2 apply bind_inr in H as (? & _ & H).
  apply bind_inr in H as ([??] & _ & H).
  do 2 apply bind_inr in H as (? & _ & H).
  do 2 apply bind_inr in H as ([??] & _ & H).
  apply bind_inr in H as ([??] & H3 & _).
  revert H3. unfold flip_stage. rewrite Hflip. unfold py_assert.
  case_bool_decide as Haff; [|done]. rewrite bind_ret.
  by intros (_ & _ & (? & ?%load_global_inr & _)%bind_inr)%bind_inr.
Qed.

Lemma returned_model_needs_names_witness :
  "layers" ∈ bound_globals ∧ "list_inputs" ∈ bound_globals
  ∧ (flipping supervised_training_defaults = true →
     "get_ras_axes" ∈ bound_globals ∧ aff supervised_training_defaults ≠ None).
Proof.
  apply (returned_model_needs_names bound_globals supervised_training_defaults
           default_model).
  vm_compute. reflexivity.
Defined.

(** ** What a run does and does not do *)

Lemma bind_ext {A B} (m : M A) (f g : A → M B) :
  (∀ a, outcome m = inr a → f a = g a) → m ≫= f = m ≫= g.
Proof.
  intros H. unfold mbind, M_bind. unfold outcome in H.
  destruct (m.2) as [e|a]; [done|]. by rewrite (H a).
Qed.

Lemma trace_bind_Forall {A B} (P : event → Prop) (m : M A) (f : A → M B) :
  Forall P (trace m) → (∀ a, outcome m = inr a → Forall P (trace (f a))) →
  Forall P (trace (m ≫= f)).
Proof.
  intros Hm Hf. rewrite trace_bind. destruct (outcome m) as [e|a]; [done|].
  apply Forall_app. split; [done|]. by apply Hf.
Qed.

Lemma trace_mapM_Forall {A B} (P : event → Prop) (f : A → M B) (l : list A) :
  (∀ x, Forall P (trace (f x))) → Forall P (trace (mapM f l)).
Proof.
  intros Hf. induction l as [|x l IH]; cbn [mapM]; [by constructor|].
  apply trace_bind_Forall; [done|]. intros y _.
  apply trace_bind_Forall; [done|]. intros k _. by constructor.
Qed.

Lemma trace_load_global globals name : trace (load_global globals name) = [].
Proof. unfold load_global. by case_bool_decide. Qed.

Lemma trace_py_index {A} (l : list A) i : trace (py_index l i) = [].
Proof. unfold py_index. by destruct (l !! i). Qed.

Lemma trace_find_closest s n : trace (find_closest_number_divisible_by_m s n) = [].
Proof. unfold find_closest_number_divisible_by_m. by case_bool_decide. Qed.

Lemma trace_get_shapes_prints im_shape crop_shape div :
  Forall (λ ev, is_print ev = true) (trace (get_shapes im_shape crop_shape div)).
Proof.
  unfold get_shapes, reformat_to_list. rewrite bind_ret.
  assert (∀ n l, Forall (λ ev, is_print ev = true)
                   (trace (mapM (λ s, find_closest_number_divisible_by_m s n) l))) as Hround.
  { intros n l. apply trace_mapM_Forall. intros s. by rewrite trace_find_closest. }
  destruct crop_shape as [c|].
  - case_bool_decide; [|by constructor]. rewrite bind_ret.
    apply trace_bind_Forall.
    { unfold clamp_crop_shape. apply trace_mapM_Forall. intros i.
      apply trace_bind_Forall; [by rewrite trace_py_index|]. intros x _.
      apply trace_bind_Forall; [by rewrite trace_py_index|]. intros y _. by constructor. }
    intros clamped _. destruct div as [n|]; [|by constructor].
    apply trace_bind_Forall; [done|]. intros tmp_shape _.
    case_bool_decide; by repeat constructor.
  - destruct div as [n|]; [done|by constructor].
Qed.

Lemma trace_stage_nil globals a crop_shape im_shape n_dims new_seg_labels labels image :
  trace (deformation_stage globals a labels image) = []
  ∧ trace (crop_stage globals crop_shape im_shape labels image) = []
  ∧ trace (flip_stage globals a n_dims new_seg_labels labels image) = []
  ∧ trace (bias_stage globals a image) = []
  ∧ trace (intensity_stage globals image) = [].
Proof.
  unfold deformation_stage, crop_stage, flip_stage, bias_stage, intensity_stage, py_assert,
    load_global.
  split_and!.
  - destruct (_ || _); [|done]. by case_bool_decide.
  - case_bool_decide; [|done]. by case_bool_decide.
  - destruct (flipping a); [|done]. by repeat case_bool_decide.
  - destruct (bias_field_std a) as [|[|]|z|q]; simpl; try done;
      try destruct (Qlt_le_dec 0 q); by repeat case_bool_decide.
  - by repeat case_bool_decide.
Qed.

(** The builder prints what [get_shapes] prints and does nothing else. *)
Lemma trace_build_prints globals a :
  Forall (λ ev, is_print ev = true) (trace (build_augmentation_model globals a)).
Proof.
  unfold build_augmentation_model.
  apply trace_bind_Forall; [by rewrite trace_load_global|]. intros _ _.
  unfold reformat_to_list at 1. rewrite bind_ret.
  apply trace_bind_Forall; [by rewrite trace_load_global|]. intros _ _.
  apply trace_bind_Forall; [apply trace_get_shapes_prints|]. intros crop_shape _.
  apply trace_bind_Forall.
  { unfold rearrange_label_list. by repeat case_bool_decide. }
  intros [new_seg_labels lut] _.
  do 2 (apply trace_bind_Forall; [by rewrite trace_load_global|]; intros _ _).
  apply trace_bind_Forall.
  { by rewrite (proj1 (trace_stage_nil globals a [] [] 0%nat [] _ _)). }
  intros [l1 i1] _. apply trace_bind_Forall.
  { by rewrite (proj1 (proj2 (trace_stage_nil globals a _ _ 0%nat [] _ _))). }
  intros [l2 i2] _. apply trace_bind_Forall.
  { by rewrite (proj1 (proj2 (proj2 (trace_stage_nil globals a [] [] _ _ _ _)))). }
  intros [l3 i3] _. apply trace_bind_Forall.
  { by rewrite (proj1 (proj2 (proj2 (proj2 (trace_stage_nil globals a [] [] 0%nat [] i3 _))))). }
  intros i4 _. apply trace_bind_Forall.
  { by rewrite (proj2 (proj2 (proj2 (proj2 (trace_stage_nil globals a [] [] 0%nat [] i4 _))))). }
  intros i5 _.
  do 3 (apply trace_bind_Forall; [by rewrite trace_load_global|]; intros _ _).
  by constructor.
Qed.

Lemma build_module_fails a :
  ∃ e, outcome (build_augmentation_model module_globals a) = inl e.
Proof.
  apply list_inputs_unbound_never_returns.
  apply (bool_decide_unpack _). by vm_compute.
Qed.

Section SupervisedTrainingRuns.
Context {voxel : Type} (w : world voxel).

Lemma sampling_not_print (ev : event) : is_print ev = true → is_sampling ev = false.
Proof. by destruct ev. Qed.

Lemma trace_list_images_no_sampling (dir : string) :
  Forall (λ ev, is_sampling ev = false) (trace (list_images_in_folder w dir)).
Proof. unfold list_images_in_folder. rewrite trace_bind. simpl. by repeat constructor. Qed.

Lemma trace_get_list_labels_no_sampling (label_list : option string) (dir : string) :
  Forall (λ ev, is_sampling ev = false) (trace (get_list_labels w label_list dir)).
Proof. unfold get_list_labels. rewrite trace_bind. simpl. by repeat constructor. Qed.

Lemma trace_mkdir_no_sampling (path : string) :
  Forall (λ ev, is_sampling ev = false) (trace (mkdir path)).
Proof. by repeat constructor. Qed.

Lemma trace_get_volume_info_no_sampling (path : string) :
  Forall (λ ev, is_sampling ev = false) (trace (get_volume_info w path)).
Proof. unfold get_volume_info. rewrite trace_bind. simpl. by repeat constructor. Qed.

(** X8: as the module is written, [supervised_training] cannot train: for
    every configuration and every content of the folders the call ends in
    an exception, the part that builds the U-Net and trains (lines 94-141)
    is never entered, and no index is drawn and no volume loaded. *)
Theorem supervised_training_as_written train a :
  (∃ e, outcome (supervised_training w train module_globals a) = inl e)
  ∧ (∀ train', supervised_training w train' module_globals a
               = supervised_training w train module_globals a)
  ∧ Forall (λ ev, is_sampling ev = false)
      (trace (supervised_training w train module_globals a)).
Proof.
  unfold supervised_training. split_and!.
  - do 4 (apply bind_fails; intros ?).
    apply bind_fails; intros [label_list n_neutral_labels].
    do 4 (apply bind_fails; intros ?).
    rewrite outcome_bind.
    edestruct build_module_fails as [e ->]. by exists e.
  - intros train'.
    do 4 (apply bind_ext; intros ? _).
    apply bind_ext; intros [label_list n_neutral_labels] _.
    do 4 (apply bind_ext; intros ? _).
    edestruct build_module_fails as [e He]. by rewrite !(bind_inl _ _ _ He).
  - apply trace_bind_Forall; [unfold py_assert; by destruct (_ || _)|]; intros _ _.
    apply trace_bind_Forall; [apply trace_list_images_no_sampling|]; intros ? _.
    apply trace_bind_Forall; [apply trace_list_images_no_sampling|]; intros ? _.
    apply trace_bind_Forall; [unfold py_assert; by case_bool_decide|]; intros _ _.
    apply trace_bind_Forall; [apply trace_get_list_labels_no_sampling|].
    intros [label_list n_neutral_labels] _.
    apply trace_bind_Forall; [apply trace_mkdir_no_sampling|]; intros _ _.
    apply trace_bind_Forall; [apply trace_mkdir_no_sampling|]; intros _ _.
    apply trace_bind_Forall; [by rewrite trace_py_index|]; intros path _.
    apply trace_bind_Forall; [apply trace_get_volume_info_no_sampling|]; intros info _.
    edestruct build_module_fails as [e He]. rewrite (bind_inl _ _ _ He).
    unfold trace at 1. cbn [fst].
    eapply Forall_impl; [apply trace_build_prints|]. apply sampling_not_print.
Qed.

(** X9: two folders that list no image pass the check on the counts; the
    run then obtains the labels, creates the model folder and its [logs]
    folder, in this order, and fails with an IndexError on
    [path_images[0]]. *)
Theorem supervised_training_empty_folders train globals a label_list n_neutral :
  w_listing w (image_dir a) = inr [] →
  w_listing w (labels_dir a) = inr [] →
  w_labels w (path_segmentation_labels a) (labels_dir a) = inr (label_list, n_neutral) →
  bool_decide (0 < wl2_epochs a) || bool_decide (0 < dice_epochs a) = true →
  supervised_training w train globals a
  = ([EvListImages (image_dir a); EvListImages (labels_dir a);
      EvGetListLabels (labels_dir a); EvMkdir (model_dir a);
      EvMkdir (path_join (model_dir a) "logs")],
     inl IndexError).
Proof.
  intros Hi Hl Hlab Hep. unfold supervised_training.
  rewrite Hep. change (py_assert true _) with (mret tt : M unit). rewrite bind_ret.
  rewrite (list_images_bind _ _ _ _ Hi), (list_images_bind _ _ _ _ Hl).
  change (py_assert (bool_decide (length [] = length [])) counts_message)
    with (mret tt : M unit).
  rewrite bind_ret. unfold get_list_labels. rewrite Hlab. reflexivity.
Qed.

Lemma py_assert_true (msg : string) : py_assert true msg = mret tt.
Proof. reflexivity. Qed.

Lemma py_assert_false (msg : string) : py_assert false msg = raise (AssertionError msg).
Proof. reflexivity. Qed.

(** X10: no folder is created for a run that fails its checks: if a
    [mkdir] happens at all, an epoch count is positive, both folders were
    listed with equal counts, and the label list was obtained. *)
Theorem supervised_training_mkdir_after_checks train globals a path :
  EvMkdir path ∈ trace (supervised_training w train globals a) →
  (0 < wl2_epochs a ∨ 0 < dice_epochs a)
  ∧ ∃ path_images path_labels labels,
      w_listing w (image_dir a) = inr path_images
      ∧ w_listing w (labels_dir a) = inr path_labels
      ∧ length path_images = length path_labels
      ∧ w_labels w (path_segmentation_labels a) (labels_dir a) = inr labels.
Proof.
  unfold supervised_training.
  destruct (bool_decide (0 < wl2_epochs a) || bool_decide (0 < dice_epochs a)) eqn:Hep.
  2:{ rewrite py_assert_false, bind_raise. by intros ?%elem_of_nil. }
  rewrite py_assert_true, bind_ret.
  destruct (w_listing w (image_dir a)) as [e|path_images] eqn:Hi.
  { unfold list_images_in_folder. rewrite Hi. simpl.
    by intros [=]%list_elem_of_singleton. }
  rewrite (list_images_bind _ _ _ _ Hi).
  destruct (w_listing w (labels_dir a)) as [e|path_labels] eqn:Hl.
  { unfold list_images_in_folder. rewrite Hl. simpl.
    intros [[=]|[[=]|[]%elem_of_nil]%elem_of_cons]%elem_of_cons. }
  rewrite (list_images_bind _ _ _ _ Hl).
  destruct (decide (length path_images = length path_labels)) as [Hlen|Hlen].
  2:{ rewrite (bool_decide_eq_false_2 (length path_images = length path_labels)) by done.
      rewrite py_assert_false. simpl.
      intros [[=]|[[=]|[]%elem_of_nil]%elem_of_cons]%elem_of_cons. }
  rewrite (bool_decide_eq_true_2 (length path_images = length path_labels)) by done.
  rewrite py_assert_true, bind_ret. unfold get_list_labels.
  destruct (w_labels w _ _) as [e|labels] eqn:Hlab.
  { simpl. intros [[=]|[[=]|[[=]|[]%elem_of_nil]%elem_of_cons]%elem_of_cons]%elem_of_cons. }
  intros _. split.
  - apply orb_true_iff in Hep as [?%bool_decide_eq_true|?%bool_decide_eq_true]; auto.
  - by exists path_images, path_labels, labels.
Qed.
End SupervisedTrainingRuns.

Lemma supervised_training_empty_folders_witness :
  supervised_training empty_world (λ _ _ _, mret tt) module_globals
    (example_training_args 5 100)
  = ([EvListImages "images"; EvListImages "labels"; EvGetListLabels "labels";
      EvMkdir "models"; EvMkdir (path_join "models" "logs")],
     inl IndexError).
Proof.
  apply (supervised_training_empty_folders empty_world (λ _ _ _, mret tt) module_globals
           (example_training_args 5 100) [0; 2; 3] 1); reflexivity.
Defined.

Lemma supervised_training_mkdir_after_checks_witness :
  (0 < wl2_epochs (example_training_args 5 100)
   ∨ 0 < dice_epochs (example_training_args 5 100))
  ∧ ∃ path_images path_labels labels,
      w_listing empty_world (image_dir (example_training_args 5 100)) = inr path_images
      ∧ w_listing empty_world (labels_dir (example_training_args 5 100)) = inr path_labels
      ∧ length path_images = length path_labels
      ∧ w_labels empty_world (path_segmentation_labels (example_training_args 5 100))
          (labels_dir (example_training_args 5 100)) = inr labels.
Proof.
  apply (supervised_training_mkdir_after_checks empty_world (λ _ _ _, mret tt)
           module_globals (example_training_args 5 100) "models").
  vm_compute. do 3 apply list_elem_of_further. apply list_elem_of_here.
Defined.

(** ** The batch generator, further *)

Lemma load_volume_bind {voxel B} (w : world voxel) (path : string) (x : ndarray voxel)
    (f : ndarray voxel → M B) :
  w_volume w path = inr x →
  load_volume w path ≫= f = (EvLoadVolume path :: trace (f x), outcome (f x)).
Proof. intros H. unfold load_volume. by rewrite H. Qed.

Lemma emit_ret_bind {A B} (ev : event) (x : A) (f : A → M B) :
  (emit ev ≫= λ _, mret x) ≫= f = (ev :: trace (f x), outcome (f x)).
Proof. reflexivity. Qed.

Lemma value_bind {A B} (m : M A) (tr : list event) (a : A) (f : A → M B) :
  m = (tr, inr a) → m ≫= f = (tr ++ trace (f a), outcome (f a)).
Proof. by intros ->. Qed.

Lemma np_concatenate_value {voxel} (item : list (ndarray voxel)) (rest : list Z) :
  item ≠ [] → Forall (λ x, shape x = 1 :: rest) item →
  ∃ y, np_concatenate item = mret y ∧ data y = mjoin (data <$> item).
Proof.
  intros Hne Hall. destruct item as [|first item]; [done|].
  unfold np_concatenate. rewrite (Forall_inv Hall).
  rewrite bool_decide_eq_true_2.
  - eexists. split; reflexivity.
  - eapply Forall_impl; [exact Hall|]. simpl. by intros x ->.
Qed.

Lemma add_axis_leading {voxel} (x : ndarray voxel) :
  add_axis x [0] = mret {| shape := 1 :: shape x; data := data x |}.
Proof.
  cbn [add_axis]. unfold expand_dims.
  rewrite (bool_decide_eq_true_2 (0 ≤ 0)) by lia.
  rewrite bool_decide_eq_true_2 by lia.
  rewrite bind_ret. simpl. by rewrite drop_0.
Qed.

Lemma add_axis_leading_channel {voxel} (x : ndarray voxel) :
  add_axis x [0; -1] = mret {| shape := 1 :: shape x ++ [1]; data := data x |}.
Proof.
  change (add_axis x [0; -1]) with (expand_dims x 0 ≫= λ y, add_axis y [-1]).
  assert (expand_dims x 0 = mret {| shape := 1 :: shape x; data := data x |}) as ->.
  { unfold expand_dims. rewrite (bool_decide_eq_true_2 (0 ≤ 0)) by lia.
    rewrite bool_decide_eq_true_2 by lia. simpl. by rewrite drop_0. }
  rewrite bind_ret. cbn [add_axis]. unfold expand_dims.
  rewrite (bool_decide_eq_false_2 (0 ≤ -1)) by lia.
  rewrite bool_decide_eq_true_2 by lia.
  rewrite bind_ret. cbn [shape data].
  replace (Z.to_nat _) with (length (1 :: shape x)) by (simpl; lia).
  by rewrite firstn_all, drop_all.
Qed.

Section GeneratorContent.
Context {voxel : Type} (w : world voxel).
Variables (path_images path_label_maps : list string) (spatial : list Z) (c : Z).
Hypothesis same_count : length path_images = length path_label_maps.
Hypothesis images_stored : ∀ path, path ∈ path_images →
  ∃ x, w_volume w path = inr x ∧ shape x = stored_image_shape spatial c.
Hypothesis labels_stored : ∀ path, path ∈ path_label_maps →
  ∃ x, w_volume w path = inr x ∧ shape x = spatial.
Hypothesis draws : draws_in_range w.

Lemma drawn_path (paths : list string) (idx : Z) :
  0 ≤ idx < Z.of_nat (length paths) →
  py_index_int paths idx = mret (path_at paths idx) ∧ path_at paths idx ∈ paths.
Proof.
  intros Hidx. unfold py_index_int, path_at. rewrite bool_decide_eq_true_2 by lia.
  destruct (lookup_lt_is_Some_2 paths (Z.to_nat idx) ltac:(lia)) as [x Hx].
  rewrite Hx. simpl. split; [by apply py_index_lookup|by eapply list_elem_of_lookup_2].
Qed.

Lemma load_samples_content (indices : list Z)
    (list_images list_label_maps : list (ndarray voxel)) :
  Forall (λ i, 0 ≤ i < Z.of_nat (length path_label_maps)) indices →
  ∃ images labels,
    load_samples w path_images path_label_maps c indices list_images list_label_maps
    = (flat_map (λ idx, [EvLoadVolume (path_at path_images idx);
                         EvLoadVolume (path_at path_label_maps idx)]) indices,
       inr (list_images ++ images, list_label_maps ++ labels))
    ∧ data <$> images = (λ idx, data (stored_volume w path_images idx)) <$> indices
    ∧ data <$> labels = (λ idx, data (stored_volume w path_label_maps idx)) <$> indices
    ∧ Forall (λ x, shape x = 1 :: spatial ++ [channel_axis c]) images
    ∧ Forall (λ x, shape x = 1 :: spatial ++ [1]) labels.
Proof.
  intros Hall. revert list_images list_label_maps.
  induction Hall as [|idx indices Hidx _ IH]; intros list_images list_label_maps.
  - exists [], []. cbn [load_samples]. by rewrite !app_nil_r.
  - cbn [load_samples].
    destruct (drawn_path path_images idx ltac:(lia)) as [-> Hpi].
    destruct (drawn_path path_label_maps idx Hidx) as [Hpl_eq Hpl].
    destruct (images_stored _ Hpi) as (image & Himage & Hshape).
    destruct (labels_stored _ Hpl) as (labels & Hlabels & Hlshape).
    rewrite bind_ret, (load_volume_bind _ _ _ _ Himage).
    assert (∃ image', (if bool_decide (1 < c) then add_axis image [0]
                       else add_axis image [0; -1]) = mret image'
                      ∧ shape image' = 1 :: spatial ++ [channel_axis c]
                      ∧ data image' = data image)
      as (image' & -> & Himage' & Hdata').
    { unfold channel_axis, stored_image_shape in *. case_bool_decide.
      - eexists. split; [apply add_axis_leading|]. simpl. by rewrite Hshape.
      - eexists. split; [apply add_axis_leading_channel|]. simpl. by rewrite Hshape. }
    rewrite bind_ret, Hpl_eq, bind_ret, (load_volume_bind _ _ _ _ Hlabels).
    rewrite add_axis_leading_channel, bind_ret.
    destruct (IH (list_images ++ [image'])
                 (list_label_maps ++ [{| shape := 1 :: shape labels ++ [1];
                                         data := data labels |}]))
      as (images & labs & -> & Hdi & Hdl & Hsi & Hsl).
    eexists (image' :: images), (_ :: labs).
    rewrite <- !app_assoc. split; [reflexivity|].
    assert (stored_volume w path_images idx = image) as Hsi0
      by (unfold stored_volume; by rewrite Himage).
    assert (stored_volume w path_label_maps idx = labels) as Hsl0
      by (unfold stored_volume; by rewrite Hlabels).
    rewrite !fmap_cons, Hdi, Hdl, Hdata', Hsi0, Hsl0. split_and!; try done.
    + by constructor.
    + constructor; [|done]. simpl. by rewrite Hlshape.
Qed.

Lemma next_inputs_content (batchsize : Z) (call : nat) :
  1 ≤ batchsize → path_label_maps ≠ [] →
  ∃ image labels,
    next_inputs w path_images path_label_maps batchsize c call
    = (pull_trace w path_images path_label_maps batchsize call, inr [image; labels])
    ∧ data image = drawn_data w path_images (length path_label_maps) batchsize call
    ∧ data labels = drawn_data w path_label_maps (length path_label_maps) batchsize call.
Proof.
  intros Hb Hne. unfold next_inputs, npr_randint, pull_trace, drawn_data.
  assert (0 < Z.of_nat (length path_label_maps)) as Hhigh.
  { destruct path_label_maps; [done|]. simpl. lia. }
  destruct (draws call (Z.of_nat (length path_label_maps)) batchsize Hhigh ltac:(lia))
    as [Hlen Hrange].
  rewrite (bool_decide_eq_false_2 (batchsize = 0)) by lia.
  rewrite (bool_decide_eq_true_2 (0 < Z.of_nat (length path_label_maps) ∧ 0 < batchsize))
    by lia.
  destruct (load_samples_content _ [] [] Hrange)
    as (images & labels & Hload & Hdi & Hdl & Hsi & Hsl).
  assert (length images = Z.to_nat batchsize) as Hli.
  { by rewrite <- Hlen, <- (length_fmap data), Hdi, length_fmap. }
  assert (length labels = Z.to_nat batchsize) as Hll.
  { by rewrite <- Hlen, <- (length_fmap data), Hdl, length_fmap. }
  set (tr := flat_map _ _) in *. cbn [app] in Hload.
  case_bool_decide as Hbig.
  - destruct (np_concatenate_value images (spatial ++ [channel_axis c])) as (y & Hy & Hdy);
      [by destruct images; [simpl in Hli; lia|]|done|].
    destruct (np_concatenate_value labels (spatial ++ [1])) as (z & Hz & Hdz);
      [by destruct labels; [simpl in Hll; lia|]|done|].
    exists y, z. rewrite Hdy, Hdz, Hdi, Hdl. split; [|done].
    rewrite emit_ret_bind, (value_bind _ _ _ _ Hload). cbn [mapM].
    rewrite Hy, bind_ret, Hz, !bind_ret. cbn [trace outcome mret M_ret fst snd].
    by rewrite app_nil_r.
  - assert (batchsize = 1) as -> by lia.
    destruct images as [|image [|??]]; try (cbn [length] in Hli; lia).
    destruct labels as [|labs [|??]]; try (cbn [length] in Hll; lia).
    exists image, labs. rewrite <- Hdi, <- Hdl. cbn [fmap list_fmap mjoin list_join].
    rewrite !app_nil_r. split; [|done].
    rewrite emit_ret_bind, (value_bind _ _ _ _ Hload). cbn [mapM py_index lookup list_lookup].
    rewrite !bind_ret. cbn [trace outcome mret M_ret fst snd].
    by rewrite app_nil_r.
Qed.
Lemma generate_content (batchsize : Z) (call pulls : nat) :
  1 ≤ batchsize → path_label_maps ≠ [] →
  ∃ yielded,
    generate w path_images path_label_maps batchsize c call pulls
    = (mjoin (pull_trace w path_images path_label_maps batchsize <$> seq call pulls),
       inr yielded)
    ∧ Forall2 (λ t list_inputs, ∃ image labels,
                 list_inputs = [image; labels]
                 ∧ data image
                   = drawn_data w path_images (length path_label_maps) batchsize t
                 ∧ data labels
                   = drawn_data w path_label_maps (length path_label_maps) batchsize t)
        (seq call pulls) yielded.
Proof.
  intros Hb Hne. revert call. induction pulls as [|pulls IH]; intros call.
  - exists []. split; [done|constructor].
  - cbn [generate seq].
    destruct (next_inputs_content batchsize call Hb Hne) as (image & labels & Hnext & Hd).
    destruct (IH (S call)) as (later & Hlater & Hall).
    exists ([image; labels] :: later). split.
    + rewrite (value_bind _ _ _ _ Hnext), (value_bind _ _ _ _ Hlater).
      cbn [trace outcome mret M_ret fst snd]. by rewrite app_nil_r.
    + constructor; [|done]. by exists image, labels.
Qed.
End GeneratorContent.

(** X11: nothing is kept between pulls. With readable volumes of one
    spatial shape and [batchsize >= 1], the generator reads the header of
    the first image once, at the first pull, and every pull draws once and
    then loads, for each drawn index in turn, the image and the label map
    stored under that same index; [pulls] pulls load
    [2 * batchsize * pulls] volumes. *)
Theorem generator_reloads_every_pull {voxel : Type} (w : world voxel)
    (path_images path_label_maps : list string) (spatial : list Z)
    (path0 : string) (info : volume_info) (batchsize : Z) (pulls : nat) :
  length path_images = length path_label_maps →
  path_images !! 0%nat = Some path0 →
  w_info w path0 = inr info →
  (∀ path, path ∈ path_images →
     ∃ x, w_volume w path = inr x
          ∧ shape x = stored_image_shape spatial (vi_n_channels info)) →
  (∀ path, path ∈ path_label_maps → ∃ x, w_volume w path = inr x ∧ shape x = spatial) →
  draws_in_range w →
  1 ≤ batchsize →
  trace (build_model_inputs w path_images path_label_maps batchsize pulls)
  = match pulls with
    | O => []
    | S _ => EvVolumeInfo path0
             :: mjoin (pull_trace w path_images path_label_maps batchsize <$> seq 0 pulls)
    end
  ∧ length (filter (λ ev, is_load ev = true)
              (trace (build_model_inputs w path_images path_label_maps batchsize pulls)))
    = (2 * Z.to_nat batchsize * pulls)%nat.
Proof.
  intros Hcount H0 Hinfo Himages Hlabels Hdraws Hb.
  assert (path_label_maps ≠ []) as Hne by (intros ->; by destruct path_images).
  assert (trace (build_model_inputs w path_images path_label_maps batchsize pulls)
          = match pulls with
            | O => []
            | S _ => EvVolumeInfo path0
                     :: mjoin (pull_trace w path_images path_label_maps batchsize
                               <$> seq 0 pulls)
            end) as Htrace.
  { destruct pulls as [|pulls]; [done|].
    unfold build_model_inputs. rewrite (py_index_lookup _ _ _ H0), bind_ret.
    unfold get_volume_info. rewrite Hinfo.
    destruct (generate_content w path_images path_label_maps spatial (vi_n_channels info)
                Hcount Himages Hlabels Hdraws batchsize 0 (S pulls) Hb Hne)
      as (yielded & Hgen & _).
    change (emit (EvVolumeInfo path0) ≫= λ _, lift (inr info))
      with (emit (EvVolumeInfo path0) ≫= λ _, (mret info : M volume_info)).
    rewrite emit_ret_bind, Hgen. done. }
  split; [done|]. rewrite Htrace.
  assert (∀ call n,
            length (filter (λ ev, is_load ev = true)
                      (mjoin (pull_trace w path_images path_label_maps batchsize
                              <$> seq call n)))
            = (2 * Z.to_nat batchsize * n)%nat) as Hcountloads.
  { intros call n. revert call. induction n as [|n IH]; intros call; [simpl; lia|].
    cbn [seq fmap list_fmap mjoin list_join]. rewrite filter_app, length_app, IH.
    unfold pull_trace. rewrite filter_cons_False by done.
    assert (0 < Z.of_nat (length path_label_maps)) as Hhigh.
    { destruct path_label_maps; [done|]. simpl. lia. }
    destruct (Hdraws call (Z.of_nat (length path_label_maps)) batchsize Hhigh ltac:(lia))
      as [Hlen _].
    rewrite <- Hlen. generalize (w_draw w call (Z.of_nat (length path_label_maps)) batchsize).
    intros l. induction l as [|idx l IHl]; [simpl; lia|].
    cbn [flat_map app]. rewrite !filter_cons_True by done. simpl in *. lia. }
  destruct pulls as [|pulls]; [simpl; lia|].
  rewrite filter_cons_False by done. apply Hcountloads.
Qed.

Lemma generator_reloads_every_pull_witness :
  trace (build_model_inputs example_world ["a"; "b"] ["a"; "b"] 2 3)
  = EvVolumeInfo "a"
    :: mjoin (pull_trace example_world ["a"; "b"] ["a"; "b"] 2 <$> seq 0 3)
  ∧ length (filter (λ ev, is_load ev = true)
              (trace (build_model_inputs example_world ["a"; "b"] ["a"; "b"] 2 3)))
    = (2 * Z.to_nat 2 * 3)%nat.
Proof.
  apply (generator_reloads_every_pull example_world ["a"; "b"] ["a"; "b"] [2; 2; 2] "a"
           {| vi_shape := [2; 2; 2]; vi_n_dims := 3; vi_n_channels := 1 |} 2 3).
  - reflexivity.
  - reflexivity.
  - reflexivity.
  - intros path _. eexists. split; reflexivity.
  - intros path _. eexists. split; reflexivity.
  - exact example_world_draws.
  - lia.
Defined.

(** X12: a sample is a pair. With readable volumes of one spatial shape
    and [batchsize >= 1], the image array and the label array of every pull
    hold the values of the image volumes and of the label volumes stored
    under the same drawn indices, in the order drawn. *)
Theorem yielded_data_is_paired {voxel : Type} (w : world voxel)
    (path_images path_label_maps : list string) (spatial : list Z)
    (path0 : string) (info : volume_info) (batchsize : Z) (pulls : nat) :
  length path_images = length path_label_maps →
  path_images !! 0%nat = Some path0 →
  w_info w path0 = inr info →
  (∀ path, path ∈ path_images →
     ∃ x, w_volume w path = inr x
          ∧ shape x = stored_image_shape spatial (vi_n_channels info)) →
  (∀ path, path ∈ path_label_maps → ∃ x, w_volume w path = inr x ∧ shape x = spatial) →
  draws_in_range w →
  1 ≤ batchsize →
  ∃ yielded,
    outcome (build_model_inputs w path_images path_label_maps batchsize pulls) = inr yielded
    ∧ Forall2 (λ t list_inputs, ∃ image labels,
                 list_inputs = [image; labels]
                 ∧ data image
                   = drawn_data w path_images (length path_label_maps) batchsize t
                 ∧ data labels
                   = drawn_data w path_label_maps (length path_label_maps) batchsize t)
        (seq 0 pulls) yielded.
Proof.
  intros Hcount H0 Hinfo Himages Hlabels Hdraws Hb.
  assert (path_label_maps ≠ []) as Hne by (intros ->; by destruct path_images).
  destruct pulls as [|pulls]; [exists []; split; [done|constructor]|].
  unfold build_model_inputs. rewrite (py_index_lookup _ _ _ H0), bind_ret.
  unfold get_volume_info. rewrite Hinfo.
  destruct (generate_content w path_images path_label_maps spatial (vi_n_channels info)
              Hcount Himages Hlabels Hdraws batchsize 0 (S pulls) Hb Hne)
    as (yielded & Hgen & Hall).
  exists yielded. split; [|done].
  change (emit (EvVolumeInfo path0) ≫= λ _, lift (inr info))
    with (emit (EvVolumeInfo path0) ≫= λ _, (mret info : M volume_info)).
  by rewrite emit_ret_bind, Hgen.
Qed.

Lemma yielded_data_is_paired_witness :
  ∃ yielded,
    outcome (build_model_inputs example_world ["a"; "b"] ["a"; "b"] 2 3) = inr yielded
    ∧ Forall2 (λ t list_inputs, ∃ image labels,
                 list_inputs = [image; labels]
                 ∧ data image = drawn_data example_world ["a"; "b"] (length ["a"; "b"]) 2 t
                 ∧ data labels = drawn_data example_world ["a"; "b"] (length ["a"; "b"]) 2 t)
        (seq 0 3) yielded.
Proof.
  apply (yielded_data_is_paired example_world ["a"; "b"] ["a"; "b"] [2; 2; 2] "a"
           {| vi_shape := [2; 2; 2]; vi_n_dims := 3; vi_n_channels := 1 |} 2 3).
  - reflexivity.
  - reflexivity.
  - reflexivity.
  - intros path _. eexists. split; reflexivity.
  - intros path _. eexists. split; reflexivity.
  - exact example_world_draws.
  - lia.
Defined.

(** X13: [batchsize = 0] is not caught: the draw gives no index, both
    lists stay empty, and taking [item[0]] at line 261 raises an IndexError
    at the first pull. *)
Theorem batchsize_zero_raises_IndexError {voxel : Type} (w : world voxel)
    (path_images path_label_maps : list string) (path0 : string) (info : volume_info)
    (pulls : nat) :
  path_images !! 0%nat = Some path0 →
  w_info w path0 = inr info →
  path_label_maps ≠ [] →
  draws_in_range w →
  build_model_inputs w path_images path_label_maps 0 (S pulls)
  = ([EvVolumeInfo path0; EvRandint (Z.of_nat (length path_label_maps)) 0], inl IndexError).
Proof.
  intros H0 Hinfo Hne Hdraws.
  unfold build_model_inputs. rewrite (py_index_lookup _ _ _ H0), bind_ret.
  unfold get_volume_info. rewrite Hinfo.
  change (emit (EvVolumeInfo path0) ≫= λ _, lift (inr info))
    with (emit (EvVolumeInfo path0) ≫= λ _, (mret info : M volume_info)).
  rewrite emit_ret_bind. cbn [generate]. unfold next_inputs, npr_randint.
  rewrite (bool_decide_eq_true_2 (0 = 0)) by done. reflexivity.
Qed.

Lemma batchsize_zero_raises_IndexError_witness :
  build_model_inputs example_world ["a"; "b"] ["a"; "b"] 0 1
  = ([EvVolumeInfo "a"; EvRandint (Z.of_nat (length ["a"; "b"])) 0], inl IndexError).
Proof.
  apply (batchsize_zero_raises_IndexError example_world ["a"; "b"] ["a"; "b"] "a"
           {| vi_shape := [2; 2; 2]; vi_n_dims := 3; vi_n_channels := 1 |} 0).
  - reflexivity.
  - reflexivity.
  - done.
  - exact example_world_draws.
Defined.

(** X14: a volume that cannot be read ends the generator at once: when the
    first drawn image fails to load, the pull raises the loader's exception
    right after that one attempt; nothing is retried and no other volume is
    tried. *)
Theorem unreadable_volume_stops_generator {voxel : Type} (w : world voxel)
    (path_images path_label_maps : list string) (path0 path : string) (info : volume_info)
    (batchsize : Z) (pulls : nat) (e : exn) :
  path_images !! 0%nat = Some path0 →
  w_info w path0 = inr info →
  path_label_maps ≠ [] →
  draws_in_range w →
  1 ≤ batchsize →
  path_images !! Z.to_nat (hd 0 (w_draw w 0 (Z.of_nat (length path_label_maps)) batchsize))
  = Some path →
  w_volume w path = inl e →
  build_model_inputs w path_images path_label_maps batchsize (S pulls)
  = ([EvVolumeInfo path0; EvRandint (Z.of_nat (length path_label_maps)) batchsize;
      EvLoadVolume path], inl e).
Proof.
  intros H0 Hinfo Hne Hdraws Hb Hpath Hvol.
  assert (0 < Z.of_nat (length path_label_maps)) as Hhigh.
  { destruct path_label_maps; [done|]. simpl. lia. }
  destruct (Hdraws 0%nat (Z.of_nat (length path_label_maps)) batchsize Hhigh ltac:(lia))
    as [Hlen Hrange].
  assert (next_inputs w path_images path_label_maps batchsize (vi_n_channels info) 0
          = ([EvRandint (Z.of_nat (length path_label_maps)) batchsize; EvLoadVolume path],
             inl e)) as Hnext.
  { unfold next_inputs, npr_randint.
    rewrite (bool_decide_eq_false_2 (batchsize = 0)) by lia.
    rewrite (bool_decide_eq_true_2 (0 < Z.of_nat (length path_label_maps) ∧ 0 < batchsize))
      by lia.
    destruct (w_draw w 0 (Z.of_nat (length path_label_maps)) batchsize) as [|idx rest];
      [simpl in Hlen; lia|].
    apply Forall_inv in Hrange. simpl in Hpath.
    rewrite emit_ret_bind. cbn [load_samples]. unfold py_index_int.
    rewrite (bool_decide_eq_true_2 (0 ≤ idx)) by lia.
    rewrite (py_index_lookup _ _ _ Hpath), !bind_ret.
    unfold load_volume. rewrite Hvol. reflexivity. }
  unfold build_model_inputs. rewrite (py_index_lookup _ _ _ H0), bind_ret.
  unfold get_volume_info. rewrite Hinfo.
  change (emit (EvVolumeInfo path0) ≫= λ _, lift (inr info))
    with (emit (EvVolumeInfo path0) ≫= λ _, (mret info : M volume_info)).
  rewrite emit_ret_bind. cbn [generate]. rewrite Hnext. reflexivity.
Qed.

Lemma unreadable_volume_stops_generator_witness :
  build_model_inputs unreadable_world ["a"] ["a"] 1 1
  = ([EvVolumeInfo "a"; EvRandint (Z.of_nat (length ["a"])) 1; EvLoadVolume "a"],
     inl (LibraryError "load_volume")).
Proof.
  apply (unreadable_volume_stops_generator unreadable_world ["a"] ["a"] "a" "a"
           {| vi_shape := [2; 2; 2]; vi_n_dims := 3; vi_n_channels := 1 |} 1 0
           (LibraryError "load_volume")).
  - reflexivity.
  - reflexivity.
  - done.
  - intros call high size Hhigh Hsize. simpl. split.
    + apply length_replicate.
    + apply Forall_replicate. lia.
  - lia.
  - reflexivity.
  - reflexivity.
Defined.

(** ** setup_nvidia.py *)

(** X15: the version test reads three characters of [sys.version], so a
    Python 3.10, 3.11, ... (any version text starting with "3.1") is taken
    for "3.1" and refused with the exception of line 12, whatever the
    requirements files hold. *)
Theorem setup_nvidia_refuses_python_3_1x (strip : string → string)
    (read_lines : string → option (list string)) (find_packages : list string)
    (rest : string) :
  setup_nvidia strip read_lines find_packages ("3.1" +:+ rest)
  = SetupRaised "Setup.py only works with python version 3.6 or 3.8, not 3.1".
Proof.
  assert (String.substring 0 3 ("3.1" +:+ rest) = "3.1") as Hthree.
  { change ("3.1" +:+ rest) with (String "3" (String "." (String "1" rest))).
    cbn [String.substring]. by destruct rest. }
  unfold setup_nvidia. rewrite Hthree. by vm_compute.
Qed.

Lemma fmap_filter_strip (strip : string → string) (lines : list string) :
  strip <$> filter (λ line, strip line ∉ preInstalledPackages) lines
  = filter (λ package, package ∉ preInstalledPackages) (strip <$> lines).
Proof.
  induction lines as [|line lines IH]; [done|].
  rewrite fmap_cons. destruct (decide (strip line ∉ preInstalledPackages)) as [Hkeep|Hdrop].
  - rewrite !filter_cons_True by done. rewrite fmap_cons. by rewrite IH.
  - rewrite !filter_cons_False by done. apply IH.
Qed.

(** X16: when the script reaches [setuptools.setup], the version text
    starts with "3.6" or "3.8", the file read is the requirements file of
    that version, and [install_requires] is exactly the stripped lines of
    that file with the entries of [preInstalledPackages] taken out and
    nothing else: no preinstalled package is required again, and every
    other line, a blank or a repeated one included, is kept, in its place
    and as often as it occurs. *)
Theorem setup_nvidia_install_requires (strip : string → string)
    (read_lines : string → option (list string)) (find_packages : list string)
    (sys_version : string) (packages install_requires : list string) :
  setup_nvidia strip read_lines find_packages sys_version
  = SetupCalled packages install_requires →
  ∃ python_version lines,
    (python_version = "3.6" ∨ python_version = "3.8")
    ∧ String.substring 0 3 sys_version = python_version
    ∧ read_lines ("requirements_python" +:+ python_version +:+ ".txt") = Some lines
    ∧ packages = find_packages
    ∧ install_requires
      = filter (λ package, package ∉ preInstalledPackages) (strip <$> lines)
    ∧ Forall (λ package, package ∉ preInstalledPackages) install_requires
    ∧ length install_requires
      = (length lines
         - length (filter (λ line, strip line ∈ preInstalledPackages) lines))%nat.
Proof.
  unfold setup_nvidia.
  destruct (bool_decide (_ ≠ "3.6") && bool_decide (_ ≠ "3.8")) eqn:Hgate; [done|].
  destruct (read_lines _) as [lines|] eqn:Hread; [|done].
  intros [= <- <-].
  exists (String.substring 0 3 sys_version), lines. split_and!; try done.
  - apply andb_false_iff in Hgate as [H|H]; apply bool_decide_eq_false in H;
      apply dec_stable in H; auto.
  - apply fmap_filter_strip.
  - apply Forall_fmap, Forall_forall. by intros line [? _]%list_elem_of_filter.
  - rewrite length_fmap. clear Hread. induction lines as [|line lines IH]; [done|].
    destruct (decide (strip line ∈ preInstalledPackages)) as [Hdrop|Hkeep].
    + rewrite (filter_cons_False (λ l, strip l ∉ preInstalledPackages)) by auto.
      rewrite (filter_cons_True (λ l, strip l ∈ preInstalledPackages)) by done.
      simpl. apply IH.
    + rewrite (filter_cons_True (λ l, strip l ∉ preInstalledPackages)) by done.
      rewrite (filter_cons_False (λ l, strip l ∈ preInstalledPackages)) by done.
      simpl. rewrite IH.
      pose proof (length_filter (λ l, strip l ∈ preInstalledPackages) lines). lia.
Qed.

Lemma setup_nvidia_install_requires_witness :
  ∃ python_version lines,
    (python_version = "3.6" ∨ python_version = "3.8")
    ∧ String.substring 0 3 "3.8.10 (default)" = python_version
    ∧ example_requirements ("requirements_python" +:+ python_version +:+ ".txt")
      = Some lines
    ∧ ["SynthSeg"; "ext"] = ["SynthSeg"; "ext"]
    ∧ ["numpy==1.18.5"; ""; "numpy==1.18.5"; ""]
      = filter (λ package, package ∉ preInstalledPackages) (strip_ascii <$> lines)
    ∧ Forall (λ package, package ∉ preInstalledPackages)
        ["numpy==1.18.5"; ""; "numpy==1.18.5"; ""]
    ∧ length ["numpy==1.18.5"; ""; "numpy==1.18.5"; ""]
      = (length lines
         - length (filter (λ line, strip_ascii line ∈ preInstalledPackages) lines))%nat.
Proof.
  apply (setup_nvidia_install_requires strip_ascii example_requirements
           ["SynthSeg"; "ext"] "3.8.10 (default)" ["SynthSeg"; "ext"]
           ["numpy==1.18.5"; ""; "numpy==1.18.5"; ""]).
  vm_compute. reflexivity.
Defined.

(** ** From the set-up to the training, once the names are bound *)

Lemma emit_bind {B} (ev : event) (f : unit → M B) :
  emit ev ≫= f = (ev :: trace (f tt), outcome (f tt)).
Proof. reflexivity. Qed.

Lemma pair_trace_outcome {A} (m : M A) : m = (trace m, outcome m).
Proof. by destruct m. Qed.

Lemma get_shapes_returns im_shape crop_shape n :
  n ≠ 0 → (∀ c, crop_shape = Some c → length c = length im_shape) →
  ∃ r, outcome (get_shapes im_shape crop_shape (Some n)) = inr r.
Proof.
  intros Hn Hlen. destruct crop_shape as [c|].
  - rewrite get_shapes_crop_div by auto. case_bool_decide; eauto.
  - rewrite get_shapes_no_crop_div by done. eauto.
Qed.

Lemma bound_globals_names :
  module_globals ⊆ bound_globals ∧ "layers" ∈ bound_globals
  ∧ "get_ras_axes" ∈ bound_globals ∧ "list_inputs" ∈ bound_globals.
Proof.
  split_and!; [|apply (bool_decide_unpack _); by vm_compute..].
  intros name Hname. unfold bound_globals. apply elem_of_app. by left.
Qed.

(** X17: with [layers], [get_ras_axes] and [list_inputs] bound, a
    well-formed run reaches the training part: after the two listings, the
    label list, the two folders and the header of the first image, and
    after what [get_shapes] may print, lines 94-141 receive the generator
    over the two listings and an augmentation model whose outputs have the
    native number of spatial axes, each a multiple of [2 ** n_levels]. *)
Theorem training_reached_with_names_bound {voxel : Type} (w : world voxel)
    (train : training_args → model → (nat → M (list (list (ndarray voxel)))) → M unit)
    (a : training_args) (path_images path_labels : list string) (path0 : string)
    (label_list : list Z) (n_neutral : Z) (info : volume_info) :
  0 < wl2_epochs a ∨ 0 < dice_epochs a →
  w_listing w (image_dir a) = inr path_images →
  w_listing w (labels_dir a) = inr path_labels →
  length path_images = length path_labels →
  w_labels w (path_segmentation_labels a) (labels_dir a) = inr (label_list, n_neutral) →
  label_list ≠ [] → NoDup label_list →
  path_images !! 0%nat = Some path0 →
  w_info w path0 = inr info →
  (∀ c, st_output_shape a = Some c → length c = length (vi_shape info)) →
  st_bias_field_std a ≠ PyNone →
  ∃ m prints spatial,
    supervised_training w train bound_globals a
    = ([EvListImages (image_dir a); EvListImages (labels_dir a);
        EvGetListLabels (labels_dir a); EvMkdir (model_dir a);
        EvMkdir (path_join (model_dir a) "logs"); EvVolumeInfo path0]
       ++ prints
       ++ trace (train a m (build_model_inputs w path_images path_labels (batchsize a))),
       outcome (train a m (build_model_inputs w path_images path_labels (batchsize a))))
    ∧ Forall (λ ev, is_print ev = true) prints
    ∧ t_shape (m_image m) = spatial ++ [vi_n_channels info]
    ∧ t_shape (m_labels m) = spatial ++ [1]
    ∧ length spatial = length (vi_shape info)
    ∧ Forall (λ x, (2 ^ Z.of_nat (n_levels a) | x)) spatial.
Proof.
  intros Hep Hi Hl Hlen Hlab Hne Hnd H0 Hinfo Hcrop Hbias.
  set (args := {| im_shape := vi_shape info;
                  n_channels := vi_n_channels info;
                  segmentation_labels := label_list;
                  n_neutral_labels := n_neutral;
                  output_shape := st_output_shape a;
                  output_div_by_n := Some (2 ^ Z.of_nat (n_levels a));
                  flipping := st_flipping a;
                  aff := Some eye4;
                  scaling_bounds := st_scaling_bounds a;
                  rotation_bounds := st_rotation_bounds a;
                  shearing_bounds := st_shearing_bounds a;
                  translation_bounds := st_translation_bounds a;
                  nonlin_std := st_nonlin_std a;
                  nonlin_shape_factor := st_nonlin_shape_factor a;
                  bias_field_std := st_bias_field_std a;
                  bias_shape_factor := st_bias_shape_factor a |}).
  assert (2 ^ Z.of_nat (n_levels a) ≠ 0) as Hpow.
  { pose proof (Z.pow_pos_nonneg 2 (Z.of_nat (n_levels a))). lia. }
  destruct (get_shapes_returns (vi_shape info) (st_output_shape a) _ Hpow Hcrop)
    as [crop_shape Hgs].
  destruct bound_globals_names as (Hmod & Hlayers & Hras & Hinputs).
  destruct (output_contract_with_names_bound bound_globals Hmod Hlayers Hras Hinputs
              args crop_shape Hgs Hne Hnd ltac:(done) Hbias)
    as (m & Hm & _ & _ & Hsi & Hsl).
  exists m, (trace (build_augmentation_model bound_globals args)), crop_shape.
  split_and!; try done.
  - unfold supervised_training.
    assert (bool_decide (0 < wl2_epochs a) || bool_decide (0 < dice_epochs a) = true)
      as -> by (apply orb_true_iff; destruct Hep; [left|right]; by apply bool_decide_eq_true).
    rewrite py_assert_true, bind_ret.
    rewrite (list_images_bind _ _ _ _ Hi), (list_images_bind _ _ _ _ Hl).
    rewrite (bool_decide_eq_true_2 (length path_images = length path_labels)) by done.
    rewrite py_assert_true, bind_ret.
    unfold get_list_labels. rewrite Hlab.
    change (emit (EvGetListLabels (labels_dir a)) ≫= λ _, lift (inr (label_list, n_neutral)))
      with (emit (EvGetListLabels (labels_dir a))
            ≫= λ _, (mret (label_list, n_neutral) : M (list Z * Z))).
    rewrite emit_ret_bind. unfold mkdir. rewrite !emit_bind.
    rewrite (py_index_lookup _ _ _ H0), bind_ret.
    unfold get_volume_info. rewrite Hinfo.
    change (emit (EvVolumeInfo path0) ≫= λ _, lift (inr info))
      with (emit (EvVolumeInfo path0) ≫= λ _, (mret info : M volume_info)).
    rewrite emit_ret_bind. fold args.
    rewrite (value_bind _ _ _ _
               (eq_trans (pair_trace_outcome (build_augmentation_model bound_globals args))
                         (f_equal (pair _) Hm))).
    reflexivity.
  - apply trace_build_prints.
  - by eapply get_shapes_length.
  - by eapply get_shapes_divisible.
Qed.

Lemma training_reached_with_names_bound_witness :
  ∃ m prints spatial,
    supervised_training paired_world (λ _ _ _, mret tt) bound_globals
      (example_training_args 5 100)
    = ([EvListImages (image_dir (example_training_args 5 100));
        EvListImages (labels_dir (example_training_args 5 100));
        EvGetListLabels (labels_dir (example_training_args 5 100));
        EvMkdir (model_dir (example_training_args 5 100));
        EvMkdir (path_join (model_dir (example_training_args 5 100)) "logs");
        EvVolumeInfo "a"]
       ++ prints
       ++ trace ((λ _ _ _, mret tt) (example_training_args 5 100) m
                   (build_model_inputs paired_world ["a"; "b"] ["a"; "b"]
                      (batchsize (example_training_args 5 100)))),
       outcome ((λ _ _ _, mret tt) (example_training_args 5 100) m
                  (build_model_inputs paired_world ["a"; "b"] ["a"; "b"]
                     (batchsize (example_training_args 5 100)))))
    ∧ Forall (λ ev, is_print ev = true) prints
    ∧ t_shape (m_image m)
      = spatial ++ [vi_n_channels {| vi_shape := [100; 100; 100]; vi_n_dims := 3;
                                      vi_n_channels := 1 |}]
    ∧ t_shape (m_labels m) = spatial ++ [1]
    ∧ length spatial
      = length (vi_shape {| vi_shape := [100; 100; 100]; vi_n_dims := 3;
                            vi_n_channels := 1 |})
    ∧ Forall (λ x, (2 ^ Z.of_nat (n_levels (example_training_args 5 100)) | x)) spatial.
Proof.
  apply (training_reached_with_names_bound paired_world (λ _ _ _, mret tt)
           (example_training_args 5 100) ["a"; "b"] ["a"; "b"] "a" [0; 2; 3] 1
           {| vi_shape := [100; 100; 100]; vi_n_dims := 3; vi_n_channels := 1 |}).
  - left. simpl. lia.
  - reflexivity.
  - reflexivity.
  - reflexivity.
  - reflexivity.
  - done.
  - apply (bool_decide_unpack _). vm_compute. reflexivity.
  - reflexivity.
  - reflexivity.
  - intros c [=].
  - done.
Defined.
